(** * Flight metrics and navigation bar: derived display values

    A shallow embedding of the value computations of
    [src/components/FlightMetrics.tsx]: the metric table built by the
    [FlightMetrics] component, and [formatDuration], [handleExport] and the
    progress percentage of the [NavBar] component.

    Numbers.  A JavaScript [number] is modelled by [JS.number]: the three
    non-finite values [NaN], [Infinity], [-Infinity], and the finite values as
    rationals, stored in lowest terms so that equal values are equal terms.
    [-0] and [0] are one value; no operation of the embedded code tells them
    apart.

    Rounding.  [JS.add], [JS.sub], [JS.mul] and [JS.div] give the exact
    rational result, where binary64 gives that result rounded to the nearest
    value it has; the rounding itself is [JS.round64].  The product by 1000
    of the coordinate rows, where the rounding decides a digit on screen, is
    the rounded one, [JS.fmul], and the rows are specified for coordinates
    that are binary64 values, [JS.is_double].  The remainder [%] is exact in
    binary64 as it is here.  Elsewhere the exact result stands for the
    rounded one, and the theorems about durations, distances and the
    progress bar are stated on the ranges where both print the same text
    (durations below 2^53 minutes, distances below 10^12 nautical miles) or
    by properties that rounding to nearest keeps (order, bounds, the two
    ends of the bar). *)

From Stdlib Require Import ZArith QArith Qround Qabs Qreduction.
From Stdlib Require Import Qcanon Bool List String Ascii Lia Lqa.
From Stdlib Require Import DecimalString DecimalPos DecimalZ.
Import ListNotations.
Open Scope string_scope.

(* ================================================================= *)
(** ** ECMAScript numbers *)

Module JS.

Inductive sign : Type := Plus | Minus.

Definition flip (s : sign) : sign :=
  match s with Plus => Minus | Minus => Plus end.

Definition sign_eqb (s t : sign) : bool :=
  match s, t with Plus, Plus | Minus, Minus => true | _, _ => false end.

Definition sign_mul (s t : sign) : sign :=
  if sign_eqb s t then Plus else Minus.

Inductive number : Type :=
| NaN
| Infinity (s : sign)
| Fin (q : Q).

Definition ofZ (z : Z) : number := Fin (inject_Z z).

(** Sign of a rational: [Lt] negative, [Eq] zero, [Gt] positive. *)
Definition sgn (q : Q) : comparison := (q ?= 0)%Q.

Definition isNaN (x : number) : bool :=
  match x with NaN => true | _ => false end.

(** ToBoolean on a number: [NaN] and zero are falsy. *)
Definition truthy (x : number) : bool :=
  match x with
  | NaN => false
  | Infinity _ => true
  | Fin q => negb (Qeq_bool q 0)
  end.

(** *** Arithmetic

    [add], [sub], [mul] and [div] return the exact result of the operation
    on finite operands; binary64 returns that result rounded, [round64]
    below. *)

Definition neg (x : number) : number :=
  match x with
  | NaN => NaN
  | Infinity s => Infinity (flip s)
  | Fin q => Fin (Qred (- q))
  end.

Definition add (x y : number) : number :=
  match x, y with
  | NaN, _ | _, NaN => NaN
  | Fin a, Fin b => Fin (Qred (a + b))
  | Infinity s, Fin _ | Fin _, Infinity s => Infinity s
  | Infinity s, Infinity t => if sign_eqb s t then Infinity s else NaN
  end.

Definition sub (x y : number) : number := add x (neg y).

Definition mul (x y : number) : number :=
  match x, y with
  | NaN, _ | _, NaN => NaN
  | Fin a, Fin b => Fin (Qred (a * b))
  | Infinity s, Fin b | Fin b, Infinity s =>
      match sgn b with
      | Eq => NaN
      | Gt => Infinity s
      | Lt => Infinity (flip s)
      end
  | Infinity s, Infinity t => Infinity (sign_mul s t)
  end.

(** A zero divisor is taken as [+0]. *)
Definition div (x y : number) : number :=
  match x, y with
  | NaN, _ | _, NaN => NaN
  | Fin a, Fin b =>
      match sgn b with
      | Eq => match sgn a with
              | Eq => NaN
              | Gt => Infinity Plus
              | Lt => Infinity Minus
              end
      | _ => Fin (Qred (a / b))
      end
  | Fin _, Infinity _ => Fin 0
  | Infinity s, Fin b =>
      match sgn b with
      | Lt => Infinity (flip s)
      | _ => Infinity s
      end
  | Infinity _, Infinity _ => NaN
  end.

(** Rounding toward zero. *)
Definition Qtrunc (q : Q) : Z :=
  match sgn q with
  | Lt => Qceiling q
  | _ => Qfloor q
  end.

(** The [%] operator: the remainder has the sign of the dividend. *)
Definition rem (x y : number) : number :=
  match x, y with
  | NaN, _ | _, NaN => NaN
  | Infinity _, _ => NaN
  | Fin a, Infinity _ => Fin a
  | Fin a, Fin b =>
      match sgn b with
      | Eq => NaN
      | _ => Fin (Qred (a - b * inject_Z (Qtrunc (a / b))))
      end
  end.

(** *** Comparison: every comparison with [NaN] is false *)

Definition cmp (x y : number) : option comparison :=
  match x, y with
  | NaN, _ | _, NaN => None
  | Fin a, Fin b => Some (a ?= b)%Q
  | Infinity Plus, Infinity Plus | Infinity Minus, Infinity Minus => Some Eq
  | Infinity Plus, _ | _, Infinity Minus => Some Gt
  | Infinity Minus, _ | _, Infinity Plus => Some Lt
  end.

Definition lt (x y : number) : bool :=
  match cmp x y with Some Lt => true | _ => false end.

Definition gt (x y : number) : bool :=
  match cmp x y with Some Gt => true | _ => false end.

Definition ge (x y : number) : bool :=
  match cmp x y with Some Gt | Some Eq => true | _ => false end.

(** *** The [Math] functions the components call *)

Definition Math_floor (x : number) : number :=
  match x with
  | Fin q => ofZ (Qfloor q)
  | _ => x
  end.

Definition Math_abs (x : number) : number :=
  match x with
  | NaN => NaN
  | Infinity _ => Infinity Plus
  | Fin q => Fin (Qred (Qabs q))
  end.

Definition Math_max (x y : number) : number :=
  match cmp x y with
  | None => NaN
  | Some Lt => y
  | Some _ => x
  end.

Definition Math_min (x y : number) : number :=
  match cmp x y with
  | None => NaN
  | Some Gt => y
  | Some _ => x
  end.

(** *** binary64 rounding

    [round64 x] is the binary64 value nearest to the rational [x], ties to
    the even significand: [x] is scaled by the power of two that puts its
    significand on 53 bits (or on the subnormal grid 2^-1074), rounded to an
    integer and scaled back; a result of magnitude 2^1024 is an infinity. *)

Definition pow2 (k : Z) : Q :=
  if (0 <=? k)%Z then inject_Z (2 ^ k) else 1 # Z.to_pos (2 ^ (- k)).

(** The exponent [k] with [2^k <= |x| < 2^(k+1)], for [x] other than 0. *)
Definition binade (x : Q) : Z :=
  let k0 := (Z.log2 (Z.abs (Qnum x)) - Z.log2 (Zpos (Qden x)))%Z in
  if Qle_bool (pow2 k0) (Qabs x) then k0 else (k0 - 1)%Z.

Definition round_half_even (y : Q) : Z :=
  let f := Qfloor y in
  match (y - inject_Z f ?= 1 # 2)%Q with
  | Lt => f
  | Gt => (f + 1)%Z
  | Eq => if Z.even f then f else (f + 1)%Z
  end.

Definition round64 (x : Q) : number :=
  let x := Qred x in
  if Qeq_bool x 0 then Fin 0
  else
    let e := Z.max (binade x - 52) (-1074) in
    let r := (inject_Z (round_half_even (x / pow2 e)) * pow2 e)%Q in
    if Qle_bool (pow2 1024) (Qabs r)
    then Infinity (if Qle_bool 0 x then Plus else Minus)
    else Fin (Qred r).

(** The product as binary64 computes it: the exact product, rounded. *)
Definition fmul (x y : number) : number :=
  match mul x y with
  | Fin q => round64 q
  | v => v
  end.


(** *** Conversion to strings *)

Definition Z_to_string (z : Z) : string :=
  NilZero.string_of_int (Z.to_int z).

Definition is_integer (q : Q) : bool :=
  Pos.eqb (Qden (Qred q)) 1.

Section ToString.

(** [Number::toString] prints a finite value that is not an integer, or whose
    magnitude reaches 10^21, with the shortest digit string that reads back
    as the same binary64 value.  That digit generation is kept abstract.
    An integer below 10^21 is printed with its own decimal digits: below
    2^53 these are the digits ECMAScript prints; from 2^53 on ECMAScript
    prints the shortest digits that read back, padded with zeros, which can
    differ from the integer's own digits in the low places. *)
Variable shortestDigits : Q -> string.

Definition numberToString (x : number) : string :=
  match x with
  | NaN => "NaN"
  | Infinity Plus => "Infinity"
  | Infinity Minus => "-Infinity"
  | Fin q =>
      if is_integer q && (Z.abs (Qnum (Qred q)) <? 10 ^ 21)%Z
      then Z_to_string (Qnum (Qred q))
      else shortestDigits q
  end.

(** [Number.prototype.toFixed(0)]: the nearest integer, the larger one on a
    tie, computed on the magnitude; the sign is put back in front. *)
Definition toFixed0 (x : number) : string :=
  match x with
  | Fin q =>
      let s := match sgn q with Lt => "-" | _ => "" end in
      let a := Qabs q in
      if Qle_bool (inject_Z (10 ^ 21)) a
      then s ++ numberToString (Fin a)
      else s ++ Z_to_string (Qfloor (a + (1 # 2)))
  | _ => numberToString x
  end.

End ToString.

End JS.

(* ================================================================= *)
(** ** The [FlightMetrics] component *)

Module FlightMetrics.

(** A field of type [number | null] that may also be absent. *)
Inductive nullable : Type :=
| Undefined
| Null
| Num (n : JS.number).

Definition ToBoolean (v : nullable) : bool :=
  match v with
  | Num n => JS.truthy n
  | _ => false
  end.

Definition ToNumber (v : nullable) : JS.number :=
  match v with
  | Undefined => JS.NaN
  | Null => JS.ofZ 0
  | Num n => n
  end.

Definition is_null (v : nullable) : bool :=
  match v with Null => true | _ => false end.

Definition is_undefined (v : nullable) : bool :=
  match v with Undefined => true | _ => false end.

(** The fields of [FlightData] that the component reads. *)
Record FlightData : Type := mkFlightData {
  groundspeed : JS.number;
  altitude : JS.number;
  heading : nullable;
  distanceToGo : nullable;
  latitude : JS.number;
  longitude : JS.number
}.

Inductive Icon : Type := Rocket | Ruler | PlaneLanding | Compass.

(** [secondaryValue?: string | number | null] *)
Inductive secondary : Type :=
| SecAbsent
| SecNull
| SecStr (s : string)
| SecNum (n : JS.number).

Record BaseMetric : Type := mkBase {
  title : string;
  icon : Icon;
  unit : string;
  secondaryValue : secondary;
  secondaryUnit : option string
}.

(** [type Metric = StandardMetric | CoordinateMetric]; in a standard metric
    [value = None] is JavaScript's [null]. *)
Inductive Metric : Type :=
| Standard (base : BaseMetric) (value : option JS.number) (places : list Z)
| Coordinate (base : BaseMetric) (wholeValue decimalValue : JS.number)
    (wholePlaces decimalPlaces : list Z).

Definition nm_to_km : JS.number := JS.Fin (1852 # 1000).

Section Component.

(** Imported from [@/lib/utils], whose source is not part of the embedding. *)
Variables knotsToKmh feetToMeters getCompassDirection : JS.number -> secondary.
Variable shortestDigits : Q -> string.

(** [const distanceToGo = ...], lines 42-44. *)
Definition floored_distanceToGo (data : FlightData) : option JS.number :=
  if negb (is_null (distanceToGo data)) && negb (is_undefined (distanceToGo data))
  then Some (JS.Math_floor (ToNumber (distanceToGo data)))
  else None.

Definition speed_metric (data : FlightData) : Metric :=
  Standard
    {| title := "Ground Speed"; icon := Rocket; unit := "knots";
       secondaryValue := knotsToKmh (groundspeed data);
       secondaryUnit := Some "km/h" |}
    (Some (JS.Math_floor (groundspeed data)))
    [1000; 100; 10; 1]%Z.

Definition altitude_metric (data : FlightData) : Metric :=
  Standard
    {| title := "Altitude"; icon := PlaneLanding; unit := "ft";
       secondaryValue := feetToMeters (altitude data);
       secondaryUnit := Some "m" |}
    (Some (JS.Math_floor (altitude data)))
    [10000; 1000; 100; 10; 1]%Z.

Definition heading_metric (data : FlightData) : Metric :=
  Standard
    {| title := "Heading"; icon := Compass; unit := "°";
       secondaryValue :=
         if ToBoolean (heading data)
         then getCompassDirection (ToNumber (heading data))
         else SecNull;
       secondaryUnit := Some "" |}
    (if ToBoolean (heading data)
     then Some (JS.Math_abs (JS.Math_floor (ToNumber (heading data))))
     else None)
    [100; 10; 1]%Z.

Definition distance_metric (data : FlightData) : Metric :=
  Standard
    {| title := "Distance To Go"; icon := Ruler; unit := "nm";
       secondaryValue :=
         match floored_distanceToGo data with
         | Some d =>
             if JS.truthy d
             then SecStr (JS.toFixed0 shortestDigits (JS.mul d nm_to_km))
             else SecNull
         | None => SecNull
         end;
       secondaryUnit := Some "km" |}
    (floored_distanceToGo data)
    [1000; 100; 10; 1]%Z.

Definition coordinate_whole (v : JS.number) : JS.number :=
  JS.Math_floor (JS.Math_abs v).

(** The product by 1000 is the binary64 one: the digit it yields depends on
    its rounding. *)
Definition coordinate_decimal (v : JS.number) : JS.number :=
  JS.Math_floor (JS.fmul (JS.rem (JS.Math_abs v) (JS.ofZ 1)) (JS.ofZ 1000)).

Definition latitude_metric (data : FlightData) : Metric :=
  Coordinate
    {| title := "Latitude"; icon := Ruler;
       unit := if JS.ge (latitude data) (JS.ofZ 0) then "°N" else "°S";
       secondaryValue := SecAbsent; secondaryUnit := None |}
    (coordinate_whole (latitude data))
    (coordinate_decimal (latitude data))
    [100; 10; 1]%Z [100; 10; 1]%Z.

Definition longitude_metric (data : FlightData) : Metric :=
  Coordinate
    {| title := "Longitude"; icon := Ruler;
       unit := if JS.ge (longitude data) (JS.ofZ 0) then "°E" else "°W";
       secondaryValue := SecAbsent; secondaryUnit := None |}
    (coordinate_whole (longitude data))
    (coordinate_decimal (longitude data))
    [100; 10; 1]%Z [100; 10; 1]%Z.

(** [const metrics: Metric[] = [...]], lines 62-121. *)
Definition metrics (data : FlightData) : list Metric :=
  [ speed_metric data; altitude_metric data; heading_metric data;
    distance_metric data; latitude_metric data; longitude_metric data ].

End Component.

(** The rows as the table shows them, by their varying parts. *)

Definition heading_row (v : option JS.number) (s : secondary) : Metric :=
  Standard
    {| title := "Heading"; icon := Compass; unit := "°";
       secondaryValue := s; secondaryUnit := Some "" |}
    v [100; 10; 1]%Z.

Definition distance_row (v : option JS.number) (s : secondary) : Metric :=
  Standard
    {| title := "Distance To Go"; icon := Ruler; unit := "nm";
       secondaryValue := s; secondaryUnit := Some "km" |}
    v [1000; 100; 10; 1]%Z.

Definition coordinate_row (name hemisphere : string) (whole decimal : Z)
    : Metric :=
  Coordinate
    {| title := name; icon := Ruler; unit := hemisphere;
       secondaryValue := SecAbsent; secondaryUnit := None |}
    (JS.ofZ whole) (JS.ofZ decimal)
    [100; 10; 1]%Z [100; 10; 1]%Z.

(** The fractional part of a rational, and the first three decimal digits of
    a coordinate's magnitude, read as an integer. *)

Definition Qfrac (x : Q) : Q := (x - inject_Z (Qfloor x))%Q.

Definition thousandths (v : Q) : Z := Qfloor (Qfrac (Qabs v) * 1000)%Q.

(** The same digits through the binary64 product:
    floor(round64((|v| mod 1) * 1000)). *)
Definition rounded_thousandths (v : Q) : Z :=
  match JS.round64 (Qfrac (Qabs v) * 1000)%Q with
  | JS.Fin r => Qfloor r
  | _ => 0%Z
  end.

(** A snapshot with the given heading, distance to go and position. *)
Definition snapshot (h d : nullable) (lat lon : JS.number) : FlightData :=
  {| groundspeed := JS.ofZ 450; altitude := JS.ofZ 35000;
     heading := h; distanceToGo := d;
     latitude := lat; longitude := lon |}.

(** *** The rendered table, lines 129-192 *)

Definition metric_base (m : Metric) : BaseMetric :=
  match m with
  | Standard b _ _ => b
  | Coordinate b _ _ _ _ => b
  end.

(** [metric.value] of a standard row; a coordinate row has no such field. *)
Definition metric_value (m : Metric) : option JS.number :=
  match m with
  | Standard _ v _ => v
  | Coordinate _ _ _ _ _ => None
  end.

(** Truthiness of [metric.secondaryValue]: absent, null, the empty string,
    zero and NaN are falsy. *)
Definition secondary_truthy (s : secondary) : bool :=
  match s with
  | SecAbsent | SecNull => false
  | SecStr t => negb (String.eqb t "")
  | SecNum n => JS.truthy n
  end.

(** The props of one [<Counter>]. *)
Record Counter : Type := mkCounter {
  counter_value : JS.number;
  fontSize : Z;
  counter_places : list Z;
  gap : Z;
  borderRadius : Z
}.

(** What a cell shows in bold: two counters around a point for a coordinate,
    one counter for an available value, the text Not Available otherwise. *)
Inductive Body : Type :=
| CoordinateBody (whole decimal : Counter) (hemisphere : string)
| CounterBody (c : Counter) (u : string)
| NotAvailable.

Record Cell : Type := mkCell {
  key : string;
  cell_icon : Icon;
  cell_title : string;
  body : Body;
  secondary_line : option (secondary * option string)
}.

Definition render_metric (loading : bool) (m : Metric) : Cell :=
  {| key := title (metric_base m);
     cell_icon := icon (metric_base m);
     cell_title := title (metric_base m);
     body :=
       match m with
       | Coordinate b w d wp dp =>
           CoordinateBody (mkCounter w 24 wp 1 4) (mkCounter d 18 dp 1 4)
             (unit b)
       | Standard b (Some v) ps => CounterBody (mkCounter v 24 ps 1 4) (unit b)
       | Standard _ None _ => NotAvailable
       end;
     secondary_line :=
       if negb loading && secondary_truthy (secondaryValue (metric_base m))
       then Some (secondaryValue (metric_base m),
                  secondaryUnit (metric_base m))
       else None |}.

Definition is_not_available (c : Cell) : bool :=
  match body c with NotAvailable => true | _ => false end.

Definition has_secondary_line (c : Cell) : bool :=
  match secondary_line c with Some _ => true | None => false end.

Section View.

Variables knotsToKmh feetToMeters getCompassDirection : JS.number -> secondary.
Variable shortestDigits : Q -> string.

(** [metrics.map((metric) => ...)] *)
Definition render (loading : bool) (data : FlightData) : list Cell :=
  map (render_metric loading)
    (metrics knotsToKmh feetToMeters getCompassDirection shortestDigits data).

End View.

(** [handleResize], lines 48-56: the column count set for a viewport width. *)
Definition handleResize (innerWidth : JS.number) : Z :=
  if JS.lt innerWidth (JS.ofZ 640) then 1
  else if JS.lt innerWidth (JS.ofZ 768) then 2
  else 3.

(** The magnitude a coordinate row displays: whole part, point, three
    decimals. *)
Definition displayed_magnitude (whole decimal : Z) : Q :=
  (inject_Z whole + inject_Z decimal / 1000)%Q.

End FlightMetrics.

(* ================================================================= *)
(** ** The [NavBar] component *)

Module NavBar.

Definition FlightData : Type := FlightMetrics.FlightData.

(** What a handler does to the outside: the calls it makes, in order. *)
Inductive Call : Type :=
| CallConvertToGPX (data : list FlightData)
| CallDownloadGPX (content filename : string)
| CallResetData
| CallSetOpen (b : bool).

(** The component's own state: [const [open, setOpen] = useState(false)]. *)
Record State : Type := mkState { open : bool }.

(** Handlers run in a state-and-trace monad. *)
Definition Handler (A : Type) : Type := State -> A * State * list Call.

Definition ret {A : Type} (a : A) : Handler A :=
  fun st => (a, st, []).

Definition bind {A B : Type} (m : Handler A) (k : A -> Handler B) : Handler B :=
  fun st =>
    let '(a, st1, t1) := m st in
    let '(b, st2, t2) := k a st1 in
    (b, st2, t1 ++ t2)%list.

Notation "x <- m ;; k" := (bind m (fun x => k))
  (at level 61, m at next level, right associativity).
Notation "m ;;; k" := (bind m (fun _ => k))
  (at level 61, right associativity).

Definition emit (c : Call) : Handler unit :=
  fun st => (tt, st, [c]).

Definition setOpen (b : bool) : Handler unit :=
  fun st => (tt, {| open := b |}, [CallSetOpen b]).

Definition run {A : Type} (m : Handler A) (st : State) : A * State * list Call :=
  m st.

(** [s || "flight"] on an optional string: absent and empty are falsy. *)
Definition or_default (s : option string) (dflt : string) : string :=
  match s with
  | Some EmptyString | None => dflt
  | Some t => t
  end.

Section Component.

Variable shortestDigits : Q -> string.

(** Imported from [@/utils/gpx], whose source is not part of the embedding. *)
Variable convertToGPX : list FlightData -> string.

(** [function formatDuration(mins?: number)], lines 221-227. *)
Definition formatDuration (mins : option JS.number) : string :=
  match mins with
  | None => "N/A"
  | Some n =>
      if JS.isNaN n then "N/A"
      else
        let mins := JS.Math_max (JS.ofZ 0) n in
        let h := JS.Math_floor (JS.div mins (JS.ofZ 60)) in
        let m := JS.rem mins (JS.ofZ 60) in
        (if JS.gt h (JS.ofZ 0)
         then JS.numberToString shortestDigits h ++ " hr "
         else "")
        ++ JS.numberToString shortestDigits m ++ " min"
  end.

(** [const handleExport = () => {...}], lines 241-246. *)
Definition handleExport (flightData : list FlightData)
    (flightNumber : option string) : Handler unit :=
  if Nat.eqb (List.length flightData) 0 then ret tt
  else
    gpxContent <- (emit (CallConvertToGPX flightData) ;;;
                   ret (convertToGPX flightData)) ;;
    emit (CallDownloadGPX gpxContent (or_default flightNumber "flight")) ;;;
    setOpen false.

(** [const handleReset = () => {...}], lines 248-251. *)
Definition handleReset : Handler unit :=
  emit CallResetData ;;; setOpen false.

(** [const elapsed = ...], lines 253-256; [None] is [undefined]. *)
Definition elapsed (flightDuration timeToGo : option JS.number)
    : option JS.number :=
  match flightDuration, timeToGo with
  | Some d, Some t => Some (JS.sub d t)
  | _, _ => None
  end.

(** [const percent = ...], lines 257-265. *)
Definition percent (flightDuration timeToGo : option JS.number) : JS.number :=
  match flightDuration, timeToGo with
  | Some d, Some t =>
      if JS.gt d (JS.ofZ 0)
      then JS.Math_max (JS.ofZ 0)
             (JS.Math_min (JS.ofZ 100)
                (JS.mul (JS.div (JS.sub d t) d) (JS.ofZ 100)))
      else JS.ofZ 0
  | _, _ => JS.ofZ 0
  end.

End Component.

(** A percentage is in range when it is at least 0 and at most 100. *)
Definition in_percent_range (p : JS.number) : bool :=
  JS.ge p (JS.ofZ 0) && JS.ge (JS.ofZ 100) p.

(** The text of a duration of [c >= 0] minutes, by the quotient and the
    remainder of [c] by 60. *)
Definition duration_text (shortestDigits : Q -> string) (c : Q) : string :=
  let h := Qfloor (c / 60) in
  let m := (c - 60 * inject_Z h)%Q in
  (if (0 <? h)%Z
   then JS.numberToString shortestDigits (JS.ofZ h) ++ " hr "
   else "")
  ++ JS.numberToString shortestDigits (JS.Fin (Qred m)) ++ " min".

(** [disabled={flightData.length === 0}] on the export item, line 331. *)
Definition export_disabled (flightData : list FlightData) : bool :=
  Nat.eqb (List.length flightData) 0.

(** The calls of a handler run, without the returned value and state. *)
Definition calls {A : Type} (m : Handler A) (st : State) : list Call :=
  snd (run m st).

Definition state_after {A : Type} (m : Handler A) (st : State) : State :=
  snd (fst (run m st)).

End NavBar.

(* ================================================================= *)
(** ** The conversions of [@/lib/utils] *)

Module Utils.

(** Modelled from the spec: the compass points, clockwise from north, of the
    sixteen-point and of the eight-point rose.  The source of
    [getCompassDirection] ([@/lib/utils]) is not part of the embedded file. *)
Definition compass_points : list string :=
  [ "N"; "NNE"; "NE"; "ENE"; "E"; "ESE"; "SE"; "SSE";
    "S"; "SSW"; "SW"; "WSW"; "W"; "WNW"; "NW"; "NNW" ].

Definition compass_points_8 : list string :=
  [ "N"; "NE"; "E"; "SE"; "S"; "SW"; "W"; "NW" ].

(** Modelled from the spec: the input is first normalized to [0, 360),
    negative inputs included. *)
Definition normalize360 (deg : Q) : Q :=
  deg - 360 * inject_Z (Qfloor (deg / 360)).

(** Modelled from the spec: [n] equal-width sectors, each centered on its
    compass point, so that the north sector reaches half a width to either
    side of 0. *)
Definition sector (n : Z) (deg : Q) : Z :=
  (Qfloor ((normalize360 deg + 180 / inject_Z n) / (360 / inject_Z n))
   mod n)%Z.

Definition direction_in (points : list string) (deg : Q) : string :=
  nth (Z.to_nat (sector (Z.of_nat (List.length points)) deg)) points "N".

(** Modelled from the spec: [compassDirection(deg)] maps a bearing to one of
    the compass points.  The north sector [-11.25, 11.25) of the spec is that
    of the sixteen-point rose; the eight-point reading is
    [compassDirection8]. *)
Definition compassDirection (deg : Q) : string :=
  direction_in compass_points deg.

Definition compassDirection8 (deg : Q) : string :=
  direction_in compass_points_8 deg.

(** Modelled from the spec: [getCompassDirection] as the component calls it,
    on a JavaScript number.  The spec gives no compass point for a bearing
    that is not finite; the lookup then finds no entry. *)
Definition getCompassDirection (deg : JS.number) : FlightMetrics.secondary :=
  match deg with
  | JS.Fin q => FlightMetrics.SecStr (compassDirection q)
  | _ => FlightMetrics.SecAbsent
  end.

Section Formatted.

Variable shortestDigits : Q -> string.

(** Modelled from the spec: [knotsToKmh(v) = v * 1.852], returned as a value
    formatted with 0 decimal places. *)
Definition knotsToKmh (v : JS.number) : FlightMetrics.secondary :=
  FlightMetrics.SecStr
    (JS.toFixed0 shortestDigits (JS.mul v (JS.Fin 1.852))).

(** Modelled from the spec: [feetToMeters(v) = v * 0.3048], same precision
    policy. *)
Definition feetToMeters (v : JS.number) : FlightMetrics.secondary :=
  FlightMetrics.SecStr
    (JS.toFixed0 shortestDigits (JS.mul v (JS.Fin 0.3048))).

End Formatted.

End Utils.

(* ================================================================= *)
(** ** Strings *)

Module Text.

Fixpoint starts_with (sub s : string) : bool :=
  match sub, s with
  | EmptyString, _ => true
  | String _ _, EmptyString => false
  | String a sub', String b s' => Ascii.eqb a b && starts_with sub' s'
  end.

(** [s.includes(sub)]: [sub] occurs in [s] at some position. *)
Fixpoint includes (sub s : string) : bool :=
  starts_with sub s
  || match s with
     | EmptyString => false
     | String _ t => includes sub t
     end.

Fixpoint all_chars (p : ascii -> bool) (s : string) : bool :=
  match s with
  | EmptyString => true
  | String c t => p c && all_chars p t
  end.

(** The characters [Number::toString] writes for a finite value: digits, the
    decimal point, the exponent mark and the signs. *)
Definition number_char (c : ascii) : bool :=
  includes (String c "") "0123456789.e+-".

Definition not_h (c : ascii) : bool := negb (Ascii.eqb c "h").

Definition not_space (c : ascii) : bool := negb (Ascii.eqb c " ").

(** A digit generator that writes number characters only. *)
Definition writes_number_chars (digits : Q -> string) : Prop :=
  forall q, all_chars number_char (digits q) = true.

(** A digit generator that never writes the empty string. *)
Definition writes_some_digit (digits : Q -> string) : Prop :=
  forall q, digits q <> EmptyString.

End Text.

(* ================================================================= *)
(** ** Sample inputs *)

Module Samples.

(** A stand-in for the digit generation of non-integers: the integer part,
    a point and the first three decimals. *)
Definition three_decimals (q : Q) : string :=
  (match JS.sgn q with Lt => "-" | _ => "" end)
  ++ JS.Z_to_string (Qfloor (Qabs q)) ++ "."
  ++ JS.Z_to_string (FlightMetrics.thousandths q).

Definition south_of_sydney : FlightMetrics.FlightData :=
  FlightMetrics.snapshot (FlightMetrics.Num (JS.ofZ (-10)))
    (FlightMetrics.Num (JS.Fin 123.7)) (JS.Fin (-33.8765)) (JS.Fin 151.25).

Definition heading_minus_ten_and_a_half : FlightMetrics.FlightData :=
  FlightMetrics.snapshot (FlightMetrics.Num (JS.Fin (-10.5)))
    FlightMetrics.Null (JS.ofZ 0) (JS.ofZ 0).

Definition due_north_at_destination : FlightMetrics.FlightData :=
  FlightMetrics.snapshot (FlightMetrics.Num (JS.ofZ 0))
    (FlightMetrics.Num (JS.ofZ 0)) (JS.ofZ 0) (JS.ofZ 0).

(** The mirror image of [south_of_sydney] across the equator and the prime
    meridian. *)
Definition mirror_of_sydney : FlightMetrics.FlightData :=
  FlightMetrics.snapshot (FlightMetrics.Num (JS.ofZ (-10)))
    (FlightMetrics.Num (JS.Fin 123.7)) (JS.Fin 33.8765) (JS.Fin (-151.25)).


Definition binary64_33_561 : Q := 4723290846693163 # 140737488355328.


Definition sample_gpx (data : list FlightMetrics.FlightData) : string :=
  "<gpx></gpx>".

End Samples.

(* ================================================================= *)
(** ** Facts about rationals *)

Section RationalFacts.

Local Open Scope Q_scope.

Lemma Qfloor_add_Z (q : Q) (z : Z) :
  Qfloor (q + inject_Z z) = (Qfloor q + z)%Z.
Proof.
  destruct q as [n d]. unfold Qfloor, Qplus, inject_Z. simpl.
  rewrite Pos.mul_1_r, Z.mul_1_r.
  apply Z.div_add. discriminate.
Qed.

Lemma Qred_inject_Z (z : Z) : Qred (inject_Z z) = inject_Z z.
Proof.
  apply Qred_identity. simpl. apply Z.gcd_1_r.
Qed.

Lemma Qfloor_red (q : Q) : Qfloor (Qred q) = Qfloor q.
Proof. now rewrite Qred_correct. Qed.

Lemma Qfloor_bounds (q : Q) (lo hi : Z) :
  inject_Z lo <= q -> q < inject_Z hi -> (lo <= Qfloor q < hi)%Z.
Proof.
  intros Hlo Hhi. split.
  - rewrite <- (Qfloor_Z lo). now apply Qfloor_resp_le.
  - rewrite Zlt_Qlt. apply Qle_lt_trans with q; [apply Qfloor_le | exact Hhi].
Qed.

End RationalFacts.

(* ================================================================= *)
(** ** binary64 rounding *)

Section Binary64Facts.

Local Open Scope Q_scope.

Lemma pow2_pos (k : Z) : 0 < JS.pow2 k.
Proof.
  unfold JS.pow2. destruct (0 <=? k)%Z eqn:B.
  - apply Z.leb_le in B. change 0 with (inject_Z 0). rewrite <- Zlt_Qlt.
    now apply Z.pow_pos_nonneg.
  - reflexivity.
Qed.

Lemma pow2_nonneg (k : Z) : (0 <= k)%Z -> JS.pow2 k = inject_Z (2 ^ k).
Proof. intros H. unfold JS.pow2. apply Z.leb_le in H. now rewrite H. Qed.

Lemma pow2_quot (a c : Z) :
  (0 <= a)%Z -> (0 <= c)%Z ->
  JS.pow2 (a - c) * inject_Z (2 ^ c) == inject_Z (2 ^ a).
Proof.
  intros Ha Hc. unfold JS.pow2. destruct (0 <=? a - c)%Z eqn:B.
  - apply Z.leb_le in B. rewrite <- inject_Z_mult, <- Z.pow_add_r by lia.
    now replace (a - c + c)%Z with a by lia.
  - apply Z.leb_gt in B.
    assert (P : (0 < 2 ^ (- (a - c)))%Z) by (apply Z.pow_pos_nonneg; lia).
    unfold Qeq, Qmult, inject_Z. cbn [Qnum Qden].
    rewrite Pos.mul_1_r, Z.mul_1_r, Z.mul_1_l, Z2Pos.id by exact P.
    rewrite <- Z.pow_add_r by lia.
    now replace (a + - (a - c))%Z with c by lia.
Qed.

Lemma pow2_mono (j k : Z) : (j <= k)%Z -> JS.pow2 j <= JS.pow2 k.
Proof.
  intros H. set (c := Z.max 0 (- j)).
  assert (Hc : (0 <= c)%Z) by lia.
  pose proof (pow2_quot (j + c) c ltac:(lia) Hc) as Ej.
  pose proof (pow2_quot (k + c) c ltac:(lia) Hc) as Ek.
  replace (j + c - c)%Z with j in Ej by lia.
  replace (k + c - c)%Z with k in Ek by lia.
  assert (P : 0 < inject_Z (2 ^ c)).
  { change 0 with (inject_Z 0). rewrite <- Zlt_Qlt.
    now apply Z.pow_pos_nonneg. }
  apply Qmult_le_r with (z := inject_Z (2 ^ c)); [exact P |].
  rewrite Ej, Ek. rewrite <- Zle_Qle. apply Z.pow_le_mono_r; lia.
Qed.

Lemma pow2_scale (e : Z) :
  (e <= 0)%Z -> JS.pow2 e * inject_Z (2 ^ (- e)) == 1.
Proof.
  intros H. pose proof (pow2_quot 0 (- e) ltac:(lia) ltac:(lia)) as E.
  now replace (0 - - e)%Z with e in E by lia.
Qed.

Lemma Qle_Qmake (q : Q) (n : Z) (d : positive) :
  q * inject_Z (Zpos d) <= inject_Z n -> q <= n # d.
Proof.
  intros H. rewrite (Qmake_Qdiv n d).
  apply Qle_shift_div_l; [reflexivity | exact H].
Qed.

Lemma Qmake_Qlt (q : Q) (n : Z) (d : positive) :
  inject_Z n < q * inject_Z (Zpos d) -> n # d < q.
Proof.
  intros H. rewrite (Qmake_Qdiv n d).
  apply Qlt_shift_div_r; [reflexivity | exact H].
Qed.

(** [JS.binade x] is the exponent of the power of two at or below [|x|]. *)
Lemma binade_spec (x : Q) :
  ~ x == 0 -> JS.pow2 (JS.binade x) <= Qabs x /\ Qabs x < JS.pow2 (JS.binade x + 1).
Proof.
  intros Hx. destruct x as [n d]. unfold JS.binade. cbn [Qnum Qden Qabs].
  assert (Hn : (0 < Z.abs n)%Z).
  { destruct n; try reflexivity. exfalso. apply Hx. reflexivity. }
  pose proof (Z.log2_spec (Z.abs n) Hn) as [Na Nb].
  pose proof (Z.log2_spec (Zpos d) eq_refl) as [Da Db].
  pose proof (Z.log2_nonneg (Z.abs n)) as A0.
  pose proof (Z.log2_nonneg (Zpos d)) as B0.
  set (a := Z.log2 (Z.abs n)) in *. set (b := Z.log2 (Zpos d)) in *.
  change (Qabs (n # d)) with (Z.abs n # d).
  assert (P : forall z, (0 < z)%Z -> 0 < inject_Z z).
  { intros z Hz. change 0 with (inject_Z 0). now rewrite <- Zlt_Qlt. }
  destruct (Qle_bool (JS.pow2 (a - b)) (Z.abs n # d)) eqn:B.
  - split; [now apply Qle_bool_iff |].
    apply Qmake_Qlt.
    pose proof (pow2_quot (a + 1) b ltac:(lia) B0) as E.
    replace (a + 1 - b)%Z with (a - b + 1)%Z in E by lia.
    apply Qlt_le_trans with (inject_Z (2 ^ (a + 1))).
    + rewrite <- Zlt_Qlt. unfold Z.succ in Nb. exact Nb.
    + rewrite <- E. apply Qmult_le_l; [apply pow2_pos |].
      now rewrite <- Zle_Qle.
  - split.
    + apply Qle_Qmake.
      pose proof (pow2_quot a (b + 1) A0 ltac:(lia)) as E.
      replace (a - (b + 1))%Z with (a - b - 1)%Z in E by lia.
      apply Qle_trans with (inject_Z (2 ^ a)); [| now rewrite <- Zle_Qle].
      rewrite <- E. apply Qmult_le_l; [apply pow2_pos |].
      rewrite <- Zle_Qle. unfold Z.succ in Db. lia.
    + replace (a - b - 1 + 1)%Z with (a - b)%Z by lia.
      apply Qnot_le_lt. intros H. apply Qle_bool_iff in H. congruence.
Qed.

Lemma binade_lt (x : Q) (k : Z) :
  ~ x == 0 -> Qabs x < JS.pow2 k -> (JS.binade x < k)%Z.
Proof.
  intros Hx H. destruct (binade_spec x Hx) as [Lo _].
  destruct (Z_lt_le_dec (JS.binade x) k) as [L | G]; [exact L |].
  exfalso. pose proof (pow2_mono k (JS.binade x) G). lra.
Qed.

(** *** Rounding to the nearest integer, ties to even *)

Lemma rne_cases (y : Q) :
  JS.round_half_even y = Qfloor y
  \/ (JS.round_half_even y = (Qfloor y + 1)%Z
      /\ 1 # 2 <= y - inject_Z (Qfloor y)).
Proof.
  unfold JS.round_half_even.
  destruct (Qcompare_spec (y - inject_Z (Qfloor y)) (1 # 2)) as [E | L | G].
  - destruct (Z.even (Qfloor y)); [left; reflexivity |].
    right. split; [reflexivity | rewrite E; apply Qle_refl].
  - left. reflexivity.
  - right. split; [reflexivity | lra].
Qed.

Lemma rne_low (y : Q) :
  y - inject_Z (Qfloor y) < 1 # 2 -> JS.round_half_even y = Qfloor y.
Proof.
  intros H. destruct (rne_cases y) as [E | [_ G]]; [exact E | lra].
Qed.

Lemma rne_ge_int (y : Q) (z : Z) :
  inject_Z z <= y -> (z <= JS.round_half_even y)%Z.
Proof.
  intros H. assert (F : (z <= Qfloor y)%Z).
  { rewrite <- (Qfloor_Z z). now apply Qfloor_resp_le. }
  destruct (rne_cases y) as [E | [E _]]; lia.
Qed.

Lemma rne_le_int (y : Q) (z : Z) :
  y <= inject_Z z -> (JS.round_half_even y <= z)%Z.
Proof.
  intros H.
  pose proof (Qfloor_le y) as Lo. pose proof (Qlt_floor y) as Hi.
  rewrite inject_Z_plus in Hi. change (inject_Z 1) with 1 in Hi.
  destruct (Z_lt_le_dec (Qfloor y) z) as [L | G].
  - destruct (rne_cases y) as [E | [E _]]; lia.
  - rewrite Zle_Qle in G. rewrite rne_low; [| lra].
    rewrite Zle_Qle. lra.
Qed.

Lemma rne_comp (y y' : Q) :
  y == y' -> JS.round_half_even y = JS.round_half_even y'.
Proof.
  intros E. unfold JS.round_half_even.
  rewrite (Qfloor_comp _ _ E).
  assert (C : (y - inject_Z (Qfloor y') ?= 1 # 2)
              = (y' - inject_Z (Qfloor y') ?= 1 # 2)) by now rewrite E.
  now rewrite C.
Qed.


(** *** Rounding to binary64 *)

Lemma Qinv_unique (p n : Q) : p * n == 1 -> / p == n.
Proof.
  intros H. assert (Hp : ~ p == 0).
  { intros E. rewrite E in H. now rewrite Qmult_0_l in H. }
  rewrite <- (Qmult_1_r (/ p)), <- H, Qmult_assoc.
  rewrite (Qmult_comm (/ p) p), (Qmult_inv_r p Hp). apply Qmult_1_l.
Qed.

(** The shape of [JS.round64] on a value other than zero whose magnitude is
    below [2 ^ top], [top <= 53]: the value is scaled by a whole power of two
    [n], rounded to an integer, and scaled back. *)
Lemma round64_scaled (x : Q) (top : Z) :
  ~ x == 0 -> (-1021 <= top <= 53)%Z -> Qabs x < JS.pow2 top ->
  exists (n : Z) (p : Q),
    (2 ^ (53 - top) <= n)%Z /\ 0 < p /\ p * inject_Z n == 1
    /\ (Qabs (inject_Z (JS.round_half_even (x * inject_Z n)) * p) < JS.pow2 1024 ->
        exists r, JS.round64 x = JS.Fin r
                  /\ r == inject_Z (JS.round_half_even (x * inject_Z n)) * p).
Proof.
  intros Hx Htop Hlt. unfold JS.round64.
  assert (Ex : Qred x == x) by apply Qred_correct.
  set (x' := Qred x) in *.
  assert (Hx' : ~ x' == 0) by (rewrite Ex; exact Hx).
  destruct (Qeq_bool x' 0) eqn:Z0; [apply Qeq_bool_iff in Z0; contradiction |].
  assert (Hb : (JS.binade x' < top)%Z).
  { apply binade_lt; [exact Hx' | now rewrite Ex]. }
  set (e := Z.max (JS.binade x' - 52) (-1074)).
  assert (He : (e <= top - 53)%Z) by (unfold e; lia).
  exists (2 ^ (- e))%Z, (JS.pow2 e).
  assert (Hs : JS.pow2 e * inject_Z (2 ^ (- e)) == 1) by (apply pow2_scale; lia).
  split; [apply Z.pow_le_mono_r; lia |].
  split; [apply pow2_pos |]. split; [exact Hs |].
  assert (Ey : x' / JS.pow2 e == x * inject_Z (2 ^ (- e))).
  { unfold Qdiv. now rewrite (Qinv_unique _ _ Hs), Ex. }
  rewrite (rne_comp _ _ Ey). intros Hfin.
  destruct (Qle_bool (JS.pow2 1024) _) eqn:B.
  - apply Qle_bool_iff in B. exfalso. lra.
  - eexists. split; [reflexivity | apply Qred_correct].
Qed.

Lemma pow2_1024_big : inject_Z (2 ^ 53) < JS.pow2 1024.
Proof. rewrite pow2_nonneg by discriminate. rewrite <- Zlt_Qlt. reflexivity. Qed.

(** Rounding never crosses a whole number (of magnitude below 2^53): a value
    between two integers rounds to a value between them. *)
Lemma round64_between (x : Q) (lo hi : Z) :
  (- 2 ^ 53 < lo)%Z -> (hi < 2 ^ 53)%Z ->
  inject_Z lo <= x -> x <= inject_Z hi ->
  exists r, JS.round64 x = JS.Fin r /\ inject_Z lo <= r /\ r <= inject_Z hi.
Proof.
  intros Hlo Hhi Lx Ux.
  destruct (Qeq_dec x 0) as [E0 | N0].
  - exists 0. split.
    + unfold JS.round64.
      assert (Z0 : Qeq_bool (Qred x) 0 = true)
        by (apply Qeq_bool_iff; now rewrite Qred_correct).
      now rewrite Z0.
    + rewrite E0 in Lx, Ux. split; assumption.
  - rewrite Zlt_Qlt in Hhi. rewrite Zlt_Qlt, inject_Z_opp in Hlo.
    pose proof pow2_1024_big as Big.
    assert (Habs : Qabs x < JS.pow2 53).
    { rewrite pow2_nonneg by discriminate.
      apply Qabs_Qlt_condition.
      generalize dependent (inject_Z (2 ^ 53)). intros T Hhi Hlo _.
      split; lra. }
    destruct (round64_scaled x 53 N0 ltac:(lia) Habs)
      as (n & p & Hn & Hp & Hs & Hr).
    change (2 ^ (53 - 53))%Z with 1%Z in Hn.
    assert (Pn : 0 <= inject_Z n).
    { change 0 with (inject_Z 0). rewrite <- Zle_Qle. lia. }
    set (m := JS.round_half_even (x * inject_Z n)) in *.
    assert (Mlo : (lo * n <= m)%Z).
    { apply rne_ge_int. rewrite inject_Z_mult.
      now apply Qmult_le_compat_r. }
    assert (Mhi : (m <= hi * n)%Z).
    { apply rne_le_int. rewrite inject_Z_mult.
      now apply Qmult_le_compat_r. }
    assert (Rlo : inject_Z lo <= inject_Z m * p).
    { rewrite Zle_Qle, inject_Z_mult in Mlo.
      apply Qmult_le_compat_r with (z := p) in Mlo; [| now apply Qlt_le_weak].
      rewrite <- Qmult_assoc, (Qmult_comm (inject_Z n) p), Hs,
        Qmult_1_r in Mlo. exact Mlo. }
    assert (Rhi : inject_Z m * p <= inject_Z hi).
    { rewrite Zle_Qle, inject_Z_mult in Mhi.
      apply Qmult_le_compat_r with (z := p) in Mhi; [| now apply Qlt_le_weak].
      rewrite <- Qmult_assoc, (Qmult_comm (inject_Z n) p), Hs,
        Qmult_1_r in Mhi. exact Mhi. }
    destruct Hr as (r & Er & Hr).
    { apply Qle_lt_trans with (inject_Z (2 ^ 53)); [| exact Big].
      apply Qabs_Qle_condition.
      generalize dependent (inject_Z (2 ^ 53)).
      generalize dependent (inject_Z m * p).
      generalize dependent (inject_Z lo). generalize dependent (inject_Z hi).
      intros. split; lra. }
    exists r. split; [exact Er |]. rewrite Hr. split; assumption.
Qed.


(** *** Values of binary64 *)



Lemma round64_comp (x y : Q) : x == y -> JS.round64 x = JS.round64 y.
Proof.
  intros E. unfold JS.round64. now rewrite (Qred_complete x y E).
Qed.

End Binary64Facts.

(* ================================================================= *)
(** ** Compass direction *)

Section CompassFacts.

Local Open Scope Q_scope.

Lemma normalize360_shift (h : Q) (k : Z) :
  Utils.normalize360 (h + 360 * inject_Z k) == Utils.normalize360 h.
Proof.
  unfold Utils.normalize360.
  assert (E : (h + 360 * inject_Z k) / 360 == h / 360 + inject_Z k) by field.
  rewrite E, Qfloor_add_Z, inject_Z_plus. ring.
Qed.

Lemma normalize360_range (h : Q) :
  0 <= Utils.normalize360 h /\ Utils.normalize360 h < 360.
Proof.
  unfold Utils.normalize360.
  pose proof (Qfloor_le (h / 360)) as Hlo.
  pose proof (Qlt_floor (h / 360)) as Hhi.
  rewrite inject_Z_plus in Hhi.
  generalize dependent (inject_Z (Qfloor (h / 360))). intros f Hlo Hhi.
  assert (E : h == 360 * (h / 360)) by field.
  apply Qmult_le_l with (z := 360) in Hlo; [| reflexivity].
  apply Qmult_lt_l with (z := 360) in Hhi; [| reflexivity].
  rewrite <- E in Hlo, Hhi. clear E.
  change (inject_Z 1) with 1 in Hhi.
  split; lra.
Qed.

Lemma direction_in_shift (points : list string) (h : Q) (k : Z) :
  Utils.direction_in points (h + 360 * inject_Z k)
  = Utils.direction_in points h.
Proof.
  unfold Utils.direction_in, Utils.sector.
  now rewrite normalize360_shift.
Qed.

Lemma Qfloor_unique (q : Q) (z : Z) :
  inject_Z z <= q -> q < inject_Z (z + 1) -> Qfloor q = z.
Proof.
  intros Hlo Hhi. pose proof (Qfloor_bounds q z (z + 1) Hlo Hhi). lia.
Qed.

Lemma sixteenth_floor (x : Q) (z : Z) :
  inject_Z z * 22.5 <= x + 11.25 -> x + 11.25 < inject_Z (z + 1) * 22.5 ->
  Qfloor ((x + 180 / 16) / (360 / 16)) = z.
Proof.
  intros Hlo Hhi.
  assert (Ew : 360 / 16 == 22.5) by (unfold Qeq; reflexivity).
  assert (Eh : 180 / 16 == 11.25) by (unfold Qeq; reflexivity).
  apply Qfloor_unique.
  - apply Qle_shift_div_l; [reflexivity |]. now rewrite Ew, Eh.
  - apply Qlt_shift_div_r; [reflexivity |]. now rewrite Ew, Eh.
Qed.

(** The model has the north sector the spec names. *)
Lemma north_sector (h : Q) :
  -11.25 <= h -> h < 11.25 -> Utils.compassDirection h = "N"%string.
Proof.
  intros Hlo Hhi.
  unfold Utils.compassDirection, Utils.direction_in, Utils.sector,
    Utils.normalize360.
  change (inject_Z (Z.of_nat (List.length Utils.compass_points))) with 16.
  destruct (Qlt_le_dec h 0) as [Hneg | Hpos].
  - rewrite (Qfloor_unique (h / 360) (-1)).
    + rewrite (sixteenth_floor _ 16); [reflexivity | |];
        simpl Z.add; unfold inject_Z; lra.
    + apply Qle_shift_div_l; [reflexivity |]. unfold inject_Z. lra.
    + apply Qlt_shift_div_r; [reflexivity |].
      simpl Z.add. unfold inject_Z. lra.
  - rewrite (Qfloor_unique (h / 360) 0).
    + rewrite (sixteenth_floor _ 0); [reflexivity | |];
        simpl Z.add; unfold inject_Z; lra.
    + apply Qle_shift_div_l; [reflexivity |]. unfold inject_Z. lra.
    + apply Qlt_shift_div_r; [reflexivity |].
      simpl Z.add. unfold inject_Z. lra.
Qed.

(** C6.  [compassDirection] has period 360: a bearing and the same bearing
    moved by any whole number of turns, forward or backward, get the same
    compass point, on the sixteen-point rose and on the eight-point rose.
    The bucketing sees only the bearing normalized into [0, 360), whatever
    the sign of the input. *)
Theorem compassDirection_periodic (h : Q) (k : Z) :
  Utils.compassDirection (h + 360 * inject_Z k) = Utils.compassDirection h
  /\ Utils.compassDirection8 (h + 360 * inject_Z k)
     = Utils.compassDirection8 h
  /\ Utils.normalize360 (h + 360 * inject_Z k) == Utils.normalize360 h
  /\ 0 <= Utils.normalize360 h < 360.
Proof.
  split; [| split; [| split]].
  - apply direction_in_shift.
  - apply direction_in_shift.
  - apply normalize360_shift.
  - apply normalize360_range.
Qed.

End CompassFacts.

(* ================================================================= *)
(** ** The metric table *)

Section FlightMetricsFacts.

Import FlightMetrics.
Local Open Scope Q_scope.

Variables knotsToKmh feetToMeters getCompassDirection : JS.number -> secondary.
Variable shortestDigits : Q -> string.

(** The table lists the six rows in display order. *)
Lemma metrics_rows (data : FlightData) :
  metrics knotsToKmh feetToMeters getCompassDirection shortestDigits data
  = [ speed_metric knotsToKmh data; altitude_metric feetToMeters data;
      heading_metric getCompassDirection data;
      distance_metric shortestDigits data;
      latitude_metric data; longitude_metric data ].
Proof. reflexivity. Qed.

Lemma truthy_Fin (q : Q) : JS.truthy (JS.Fin q) = true <-> ~ q == 0.
Proof.
  simpl. rewrite negb_true_iff. split.
  - intros H E. apply Qeq_bool_iff in E. congruence.
  - intros H. destruct (Qeq_bool q 0) eqn:E; [| reflexivity].
    apply Qeq_bool_iff in E. contradiction.
Qed.

Lemma falsy_Fin (q : Q) : q == 0 -> JS.truthy (JS.Fin q) = false.
Proof.
  intros E. simpl. apply negb_false_iff. now apply Qeq_bool_iff.
Qed.

Lemma abs_floor_Fin (q : Q) :
  JS.Math_abs (JS.Math_floor (JS.Fin q)) = JS.ofZ (Z.abs (Qfloor q)).
Proof.
  unfold JS.Math_floor, JS.Math_abs, JS.ofZ. f_equal.
  change (Qabs (inject_Z (Qfloor q))) with (inject_Z (Z.abs (Qfloor q))).
  apply Qred_inject_Z.
Qed.

(** C1, as the code has it.  A heading that is null or absent gives the
    heading row no primary and no secondary value.  A heading that is a
    number other than zero and NaN gives primary = abs(floor(heading)), the
    floor taken first, and secondary = getCompassDirection(heading); for a
    finite heading the primary is the integer |floor(heading)|, so -10 is
    shown as 10. *)
Theorem heading_metric_abs_of_floor (data : FlightData) :
  (heading data = Null \/ heading data = Undefined ->
     heading_metric getCompassDirection data = heading_row None SecNull)
  /\ (forall h, heading data = Num h -> JS.truthy h = true ->
        heading_metric getCompassDirection data
        = heading_row (Some (JS.Math_abs (JS.Math_floor h)))
            (getCompassDirection h))
  /\ (forall q, heading data = Num (JS.Fin q) -> ~ q == 0 ->
        heading_metric getCompassDirection data
        = heading_row (Some (JS.ofZ (Z.abs (Qfloor q))))
            (getCompassDirection (JS.Fin q)))
  /\ (heading data = Num (JS.ofZ (-10)) ->
        heading_metric getCompassDirection data
        = heading_row (Some (JS.ofZ 10)) (getCompassDirection (JS.ofZ (-10)))).
Proof.
  unfold heading_metric, heading_row. repeat split.
  - intros [E | E]; rewrite E; reflexivity.
  - intros h E T. rewrite E. simpl. rewrite T. reflexivity.
  - intros q E Hq. rewrite E. cbn [ToBoolean ToNumber].
    apply truthy_Fin in Hq. rewrite Hq, abs_floor_Fin. reflexivity.
  - intros E. rewrite E. reflexivity.
Qed.

(** C8.  A heading of exactly zero gives the heading row no primary and no
    secondary value: the row is built under [data.heading ? ... : null], and
    zero is falsy. *)
Theorem heading_zero_unavailable (data : FlightData) (q : Q) :
  heading data = Num (JS.Fin q) -> q == 0 ->
  heading_metric getCompassDirection data = heading_row None SecNull.
Proof.
  intros E Hq. unfold heading_metric, heading_row.
  rewrite E. cbn [ToBoolean]. rewrite (falsy_Fin q Hq). reflexivity.
Qed.

(** *** Distance to go *)

Lemma floored_distanceToGo_Num (data : FlightData) (d : JS.number) :
  distanceToGo data = Num d ->
  floored_distanceToGo data = Some (JS.Math_floor d).
Proof.
  intros E. unfold floored_distanceToGo. rewrite E. reflexivity.
Qed.

(** The distance row away from the falsy values: no values when the field is
    null or absent, and floor(distanceToGo) with the kilometres of that
    floored value when the floor is a number other than zero and NaN. *)
Lemma distance_metric_cases (data : FlightData) :
  (distanceToGo data = Null \/ distanceToGo data = Undefined ->
     distance_metric shortestDigits data = distance_row None SecNull)
  /\ (forall d, distanceToGo data = Num d ->
        JS.truthy (JS.Math_floor d) = true ->
        distance_metric shortestDigits data
        = distance_row (Some (JS.Math_floor d))
            (SecStr (JS.toFixed0 shortestDigits
                       (JS.mul (JS.Math_floor d) nm_to_km)))).
Proof.
  unfold distance_metric, distance_row. split.
  - intros [E | E]; unfold floored_distanceToGo; rewrite E; reflexivity.
  - intros d E T. rewrite (floored_distanceToGo_Num data d E), T.
    reflexivity.
Qed.

Example distance_123_7 :
  distance_metric shortestDigits
    (snapshot Null (Num (JS.Fin 123.7)) (JS.ofZ 0) (JS.ofZ 0))
  = distance_row (Some (JS.ofZ 123)) (SecStr "228").
Proof. reflexivity. Qed.

(** C2, at the input where the code departs from it.  With distanceToGo = 0
    the distance row has primary 0 and no secondary value, although 0 nm
    converted and rounded to 0 decimals is the string 0. *)
Theorem distance_zero_drops_km :
  distance_metric shortestDigits
    Samples.due_north_at_destination
  = distance_row (Some (JS.ofZ 0)) SecNull
  /\ JS.toFixed0 shortestDigits
       (JS.mul (JS.Math_floor (JS.ofZ 0)) nm_to_km) = "0"%string.
Proof. split; reflexivity. Qed.

(** C9.  A distance to go of zero gives the distance row the primary value 0
    and no secondary value: the primary is kept by the explicit test against
    null and undefined, the secondary is dropped by the truthiness test on
    the floored value. *)
Theorem distance_zero_primary_only (data : FlightData) (q : Q) :
  distanceToGo data = Num (JS.Fin q) -> q == 0 ->
  distance_metric shortestDigits data
  = distance_row (Some (JS.ofZ 0)) SecNull.
Proof.
  intros E Hq. unfold distance_metric, distance_row.
  rewrite (floored_distanceToGo_Num data _ E).
  cbn [JS.Math_floor]. rewrite Hq. reflexivity.
Qed.

(** *** Latitude and longitude *)

Lemma Qfrac_range (x : Q) : 0 <= Qfrac x /\ Qfrac x < 1.
Proof.
  unfold Qfrac.
  pose proof (Qfloor_le x) as Hlo.
  pose proof (Qlt_floor x) as Hhi.
  rewrite inject_Z_plus in Hhi. change (inject_Z 1) with 1 in Hhi.
  split; lra.
Qed.

Lemma Qfrac_red (x : Q) : Qfrac (Qred x) == Qfrac x.
Proof.
  unfold Qfrac. rewrite Qfloor_red.
  apply Qplus_comp; [apply Qred_correct | reflexivity].
Qed.

Lemma thousandths_range (v : Q) : (0 <= thousandths v <= 999)%Z.
Proof.
  unfold thousandths.
  destruct (Qfrac_range (Qabs v)) as [Hlo Hhi].
  assert (H : (0 <= Qfloor (Qfrac (Qabs v) * 1000) < 1000)%Z).
  { apply Qfloor_bounds.
    - change (inject_Z 0) with 0. lra.
    - change (inject_Z 1000) with 1000. lra. }
  lia.
Qed.

Lemma Qtrunc_nonneg (x : Q) : 0 <= x -> JS.Qtrunc x = Qfloor x.
Proof.
  intros H. unfold JS.Qtrunc, JS.sgn.
  destruct (Qcompare_spec x 0) as [_ | L | _]; try reflexivity.
  exfalso. lra.
Qed.

Lemma rem_one (a : Q) :
  0 <= a -> JS.rem (JS.Fin a) (JS.ofZ 1) = JS.Fin (Qred (Qfrac a)).
Proof.
  intros Ha. unfold JS.rem, JS.ofZ.
  change (JS.sgn (inject_Z 1)) with Gt. cbv iota.
  f_equal. apply Qred_complete. unfold Qfrac.
  assert (E : a / inject_Z 1 == a) by (change (inject_Z 1) with 1; field).
  rewrite Qtrunc_nonneg by (rewrite E; exact Ha).
  rewrite E. change (inject_Z 1) with 1. ring.
Qed.

Lemma coordinate_whole_Fin (v : Q) :
  coordinate_whole (JS.Fin v) = JS.ofZ (Qfloor (Qabs v)).
Proof.
  unfold coordinate_whole. cbn [JS.Math_abs JS.Math_floor].
  now rewrite Qfloor_red.
Qed.

Lemma Qfrac_comp (a b : Q) : a == b -> Qfrac a == Qfrac b.
Proof. intros E. unfold Qfrac. now rewrite (Qfloor_comp _ _ E), E. Qed.

(** The binary64 product of the fractional part by 1000 is a finite value
    between the exact truncation and the next whole number. *)
Lemma rounded_product (v : Q) :
  exists r,
    JS.round64 (Qfrac (Qabs v) * 1000) = JS.Fin r
    /\ inject_Z (thousandths v) <= r
    /\ r <= inject_Z (thousandths v + 1)
    /\ rounded_thousandths v = Qfloor r.
Proof.
  pose proof (thousandths_range v) as Ht.
  destruct (round64_between (Qfrac (Qabs v) * 1000)
              (thousandths v) (thousandths v + 1)) as (r & Er & Lo & Hi).
  - lia.
  - lia.
  - apply Qfloor_le.
  - apply Qlt_le_weak, Qlt_floor.
  - exists r. unfold rounded_thousandths. rewrite Er. auto.
Qed.

Lemma rounded_thousandths_near (v : Q) :
  (thousandths v <= rounded_thousandths v <= thousandths v + 1)%Z.
Proof.
  destruct (rounded_product v) as (r & _ & Lo & Hi & ->). split.
  - rewrite <- (Qfloor_Z (thousandths v)). now apply Qfloor_resp_le.
  - rewrite <- (Qfloor_Z (thousandths v + 1)). now apply Qfloor_resp_le.
Qed.

Lemma coordinate_decimal_Fin (v : Q) :
  coordinate_decimal (JS.Fin v) = JS.ofZ (rounded_thousandths v).
Proof.
  unfold coordinate_decimal. cbn [JS.Math_abs].
  rewrite rem_one by (rewrite Qred_correct; apply Qabs_nonneg).
  unfold JS.fmul. cbn [JS.mul JS.ofZ].
  rewrite (round64_comp _ (Qfrac (Qabs v) * 1000)).
  - destruct (rounded_product v) as (r & Er & _ & _ & ->).
    rewrite Er. reflexivity.
  - rewrite !Qred_correct, Qfrac_red. reflexivity.
Qed.

Lemma rounded_thousandths_abs (v w : Q) :
  Qabs v == Qabs w -> rounded_thousandths v = rounded_thousandths w.
Proof.
  intros E. unfold rounded_thousandths.
  rewrite (round64_comp _ (Qfrac (Qabs w) * 1000)); [reflexivity |].
  now rewrite (Qfrac_comp _ _ E).
Qed.


Lemma ge_zero_Fin (v : Q) : JS.ge (JS.Fin v) (JS.ofZ 0) = Qle_bool 0 v.
Proof.
  unfold JS.ge, JS.cmp, JS.ofZ. change (inject_Z 0) with 0.
  destruct (Qcompare_spec v 0) as [E | L | G];
    destruct (Qle_bool 0 v) eqn:B; try reflexivity; exfalso.
  - assert (H : 0 <= v) by (rewrite E; apply Qle_refl).
    apply Qle_bool_iff in H. congruence.
  - apply Qle_bool_iff in B. lra.
  - assert (H : 0 <= v) by lra.
    apply Qle_bool_iff in H. congruence.
Qed.

Lemma thousandths_comp (v w : Q) : v == w -> thousandths v = thousandths w.
Proof.
  intros E. unfold thousandths, Qfrac. apply Qfloor_comp.
  rewrite (Qfloor_comp _ _ (Qabs_wd _ _ E)), (Qabs_wd _ _ E). reflexivity.
Qed.




(** The code shows 561 for the binary64 value nearest to 33.561, whose exact
    third decimal is 0: the product by 1000 rounds up to 561. *)
Example coordinate_33_561 :
  coordinate_decimal (JS.Fin Samples.binary64_33_561) = JS.ofZ 561
  /\ thousandths Samples.binary64_33_561 = 560%Z.
Proof. split; vm_compute; reflexivity. Qed.


End FlightMetricsFacts.

(* ================================================================= *)
(** ** Strings and digits *)

Section TextFacts.

Import Text.

Lemma string_app_assoc (a b c : string) : (a ++ b) ++ c = a ++ (b ++ c).
Proof. induction a as [| x a IH]; simpl; [reflexivity | now rewrite IH]. Qed.

Lemma includes_app_r (p a b : string) :
  includes p b = true -> includes p (a ++ b) = true.
Proof.
  intros H. induction a as [| x a IH]; simpl; [exact H |].
  rewrite IH. apply orb_true_r.
Qed.

Lemma all_chars_app (p : ascii -> bool) (a b : string) :
  all_chars p (a ++ b) = all_chars p a && all_chars p b.
Proof.
  induction a as [| x a IH]; simpl; [reflexivity |].
  now rewrite IH, andb_assoc.
Qed.

Lemma all_chars_weaken (p r : ascii -> bool) (s : string) :
  (forall c, p c = true -> r c = true) ->
  all_chars p s = true -> all_chars r s = true.
Proof.
  intros Hpr. induction s as [| x s IH]; simpl; [reflexivity |].
  rewrite !andb_true_iff. intros [Hx Hs]. split; auto.
Qed.

Lemma number_char_not_h (c : ascii) : number_char c = true -> not_h c = true.
Proof.
  unfold not_h. destruct (Ascii.eqb c "h") eqn:E; [| reflexivity].
  apply Ascii.eqb_eq in E. subst c. vm_compute. intros H; exact H.
Qed.

Lemma no_h_no_hr (s : string) :
  all_chars not_h s = true -> includes "hr" s = false.
Proof.
  induction s as [| x s IH]; cbn [all_chars includes starts_with];
    [reflexivity |].
  rewrite andb_true_iff. intros [Hx Hs]. rewrite (IH Hs), orb_false_r.
  unfold not_h in Hx. rewrite Ascii.eqb_sym.
  apply negb_true_iff in Hx. now rewrite Hx.
Qed.

Lemma uint_chars (d : Decimal.uint) :
  all_chars number_char (NilEmpty.string_of_uint d) = true.
Proof. induction d; simpl; auto. Qed.

Lemma Z_to_string_chars (z : Z) :
  all_chars number_char (JS.Z_to_string z) = true.
Proof.
  unfold JS.Z_to_string, NilZero.string_of_int, NilZero.string_of_uint.
  destruct (Z.to_int z) as [d | d]; destruct d; simpl;
    auto using uint_chars.
Qed.

Lemma numberToString_Fin_chars (digits : Q -> string) (q : Q) :
  writes_number_chars digits ->
  all_chars number_char (JS.numberToString digits (JS.Fin q)) = true.
Proof.
  intros Hd. unfold JS.numberToString.
  destruct (JS.is_integer q && _); [apply Z_to_string_chars | apply Hd].
Qed.

Lemma three_decimals_chars : writes_number_chars Samples.three_decimals.
Proof.
  intros q. unfold Samples.three_decimals.
  rewrite !all_chars_app, !Z_to_string_chars.
  destruct (JS.sgn q); reflexivity.
Qed.

End TextFacts.

(* ================================================================= *)
(** ** The navigation bar *)

Section NavBarFacts.

Import Text NavBar.
Local Open Scope Q_scope.

Variable shortestDigits : Q -> string.
Variable convertToGPX : list FlightData -> string.

(** *** Clamping, quotient and remainder *)

Lemma max_zero_negative (n : JS.number) :
  JS.lt n (JS.ofZ 0) = true ->
  JS.isNaN n = false /\ JS.Math_max (JS.ofZ 0) n = JS.ofZ 0.
Proof.
  destruct n as [| [|] | q]; try discriminate; try (split; reflexivity).
  unfold JS.lt, JS.Math_max, JS.cmp, JS.ofZ.
  rewrite <- (Qcompare_antisym q (inject_Z 0)).
  destruct (q ?= inject_Z 0); try discriminate. split; reflexivity.
Qed.

Lemma max_zero_nonneg (q : Q) :
  0 <= q -> exists c, JS.Math_max (JS.ofZ 0) (JS.Fin q) = JS.Fin c /\ c == q.
Proof.
  intros Hq. unfold JS.Math_max, JS.cmp, JS.ofZ.
  change (inject_Z 0) with 0.
  destruct (Qcompare_spec 0 q) as [E | L | G].
  - exists 0. split; [reflexivity | exact E].
  - exists q. split; reflexivity.
  - exfalso. lra.
Qed.

Lemma gt_ofZ (a b : Z) : JS.gt (JS.ofZ a) (JS.ofZ b) = (b <? a)%Z.
Proof.
  unfold JS.gt, JS.cmp, JS.ofZ, Qcompare, inject_Z. simpl.
  rewrite !Z.mul_1_r, Z.ltb_antisym, Z.leb_compare.
  destruct (a ?= b)%Z; reflexivity.
Qed.

Lemma div_sixty (c : Q) :
  JS.Math_floor (JS.div (JS.Fin c) (JS.ofZ 60)) = JS.ofZ (Qfloor (c / 60)).
Proof.
  unfold JS.div, JS.ofZ. change (JS.sgn (inject_Z 60)) with Gt. cbv iota.
  cbn [JS.Math_floor]. change (inject_Z 60) with 60.
  now rewrite Qfloor_red.
Qed.

Lemma rem_sixty (c : Q) :
  0 <= c ->
  JS.rem (JS.Fin c) (JS.ofZ 60)
  = JS.Fin (Qred (c - 60 * inject_Z (Qfloor (c / 60)))).
Proof.
  intros Hc. unfold JS.rem, JS.ofZ.
  change (JS.sgn (inject_Z 60)) with Gt. cbv iota.
  change (inject_Z 60) with 60.
  rewrite Qtrunc_nonneg; [reflexivity |].
  apply Qle_shift_div_l; [reflexivity | lra].
Qed.

Lemma duration_text_comp (c q : Q) :
  c == q -> duration_text shortestDigits c = duration_text shortestDigits q.
Proof.
  intros E. unfold duration_text.
  assert (Eh : Qfloor (c / 60) = Qfloor (q / 60)) by now rewrite E.
  rewrite Eh. do 4 f_equal. apply Qred_complete. now rewrite E.
Qed.

Lemma formatDuration_nonneg (q : Q) :
  0 <= q ->
  formatDuration shortestDigits (Some (JS.Fin q))
  = duration_text shortestDigits q.
Proof.
  intros Hq. destruct (max_zero_nonneg q Hq) as (c & Ec & Hc).
  rewrite <- (duration_text_comp c q Hc).
  unfold formatDuration, duration_text. cbn [JS.isNaN]. cbv zeta.
  rewrite Ec, div_sixty, gt_ofZ, rem_sixty by (rewrite Hc; exact Hq).
  reflexivity.
Qed.

Lemma numberToString_ofZ (z : Z) :
  (Z.abs z < 10 ^ 21)%Z ->
  JS.numberToString shortestDigits (JS.ofZ z) = JS.Z_to_string z.
Proof.
  intros Hz. unfold JS.numberToString, JS.ofZ, JS.is_integer.
  rewrite Qred_inject_Z. cbn [inject_Z Qden Qnum].
  apply Z.ltb_lt in Hz. now rewrite Hz.
Qed.

Lemma duration_text_integer (z : Z) :
  (0 <= z < 10 ^ 21)%Z ->
  duration_text shortestDigits (inject_Z z)
  = ((if (0 <? z / 60)%Z then JS.Z_to_string (z / 60) ++ " hr " else "")
     ++ JS.Z_to_string (z mod 60) ++ " min")%string.
Proof.
  intros Hz. unfold duration_text.
  assert (Eh : Qfloor (inject_Z z / 60) = (z / 60)%Z).
  { symmetry. apply (Zdiv_Qdiv z 60). }
  rewrite Eh.
  assert (Em : Qred (inject_Z z - 60 * inject_Z (z / 60))
               = inject_Z (z mod 60)).
  { rewrite <- (Qred_inject_Z (z mod 60)). apply Qred_complete.
    rewrite (Z.mod_eq z 60) by discriminate.
    unfold Z.sub. rewrite inject_Z_plus, inject_Z_opp, inject_Z_mult.
    change (inject_Z 60) with 60. ring. }
  rewrite Em.
  pose proof (Z.mod_pos_bound z 60 eq_refl) as Hm.
  assert (Hd : (0 <= z / 60 <= z)%Z).
  { split; [apply Z.div_pos; lia |].
    apply Z.div_le_upper_bound; lia. }
  change (JS.Fin (inject_Z (z mod 60))) with (JS.ofZ (z mod 60)).
  rewrite !numberToString_ofZ by lia. reflexivity.
Qed.


(** *** The hour segment *)

Lemma duration_text_hr (q : Q) :
  writes_number_chars shortestDigits ->
  includes "hr" (duration_text shortestDigits q) = (0 <? Qfloor (q / 60))%Z.
Proof.
  intros Hd. unfold duration_text. cbv zeta.
  destruct (0 <? Qfloor (q / 60))%Z.
  - rewrite string_app_assoc. apply includes_app_r. reflexivity.
  - cbn [append]. apply no_h_no_hr. rewrite all_chars_app.
    rewrite (all_chars_weaken number_char not_h _ number_char_not_h
               (numberToString_Fin_chars shortestDigits _ Hd)).
    reflexivity.
Qed.

(** C5.  For every number of minutes m >= 0, the text of [formatDuration m]
    contains hr exactly when floor(m / 60) > 0; for a finite m that is when
    the integer floor(m / 60) is positive.  The digits written for a number
    are assumed to be number characters (digits, point, exponent mark and
    signs), as [Number::toString] writes them. *)
Theorem formatDuration_hr_iff (m : JS.number) :
  writes_number_chars shortestDigits ->
  JS.ge m (JS.ofZ 0) = true ->
  (includes "hr" (formatDuration shortestDigits (Some m)) = true
   <-> JS.gt (JS.Math_floor (JS.div m (JS.ofZ 60))) (JS.ofZ 0) = true)
  /\ (forall q, m = JS.Fin q ->
        (includes "hr" (formatDuration shortestDigits (Some m)) = true
         <-> (0 < Qfloor (q / 60))%Z)).
Proof.
  intros Hd Hm. destruct m as [| [|] | q]; try discriminate.
  - split; [split; reflexivity | intros q; discriminate].
  - rewrite ge_zero_Fin in Hm. apply Qle_bool_iff in Hm.
    rewrite (formatDuration_nonneg q Hm), (duration_text_hr q Hd).
    rewrite div_sixty, gt_ofZ. split; [reflexivity |].
    intros q' [= <-]. apply Z.ltb_lt.
Qed.

(** *** Export *)

(** C7.  Exporting an empty list of snapshots does nothing and ends normally:
    the handler returns at once, with no call to [convertToGPX], no call to
    [downloadGPX], no other call, and the component state as it was. *)
Theorem handleExport_empty_noop (flightData : list FlightData)
    (flightNumber : option string) (st : State) :
  List.length flightData = 0%nat ->
  run (handleExport convertToGPX flightData flightNumber) st = (tt, st, []).
Proof.
  intros Hlen. destruct flightData as [| d ds].
  - reflexivity.
  - discriminate Hlen.
Qed.

Lemma handleExport_nonempty (d : FlightData) (ds : list FlightData)
    (flightNumber : option string) (st : State) :
  run (handleExport convertToGPX (d :: ds) flightNumber) st
  = (tt, {| open := false |},
     [ CallConvertToGPX (d :: ds);
       CallDownloadGPX (convertToGPX (d :: ds))
         (or_default flightNumber "flight");
       CallSetOpen false ]).
Proof. reflexivity. Qed.

(** *** Progress *)

Lemma clamp_percent (x : Q) :
  exists p,
    JS.Math_max (JS.ofZ 0) (JS.Math_min (JS.ofZ 100) (JS.Fin x)) = JS.Fin p
    /\ 0 <= p <= 100.
Proof.
  unfold JS.Math_min, JS.cmp, JS.ofZ.
  change (inject_Z 100) with 100. change (inject_Z 0) with 0.
  destruct (Qcompare_spec 100 x) as [E | L | G].
  - exists 100. split; [reflexivity | lra].
  - exists 100. split; [reflexivity | lra].
  - unfold JS.Math_max, JS.cmp.
    destruct (Qcompare_spec 0 x) as [E' | L' | G'].
    + exists 0. split; [reflexivity | lra].
    + exists x. split; [reflexivity | lra].
    + exists 0. split; [reflexivity | lra].
Qed.

(** With finite inputs the percentage is a finite number in [0, 100]. *)
Lemma percent_finite_in_range (d t : Q) :
  exists p,
    percent (Some (JS.Fin d)) (Some (JS.Fin t)) = JS.Fin p /\ 0 <= p <= 100.
Proof.
  unfold percent. destruct (JS.gt (JS.Fin d) (JS.ofZ 0)) eqn:G.
  - assert (Sd : JS.sgn d = Gt).
    { unfold JS.gt, JS.cmp, JS.ofZ in G. unfold JS.sgn.
      change (inject_Z 0) with 0 in G. destruct (d ?= 0); congruence. }
    unfold JS.sub, JS.neg, JS.add, JS.div. rewrite Sd.
    cbn [JS.mul JS.ofZ]. apply clamp_percent.
  - exists 0. split; [reflexivity | lra].
Qed.

(** Without both inputs, or with a duration that is not greater than 0, the
    percentage is 0 and nothing is divided. *)
Lemma percent_default (flightDuration timeToGo : option JS.number) :
  flightDuration = None \/ timeToGo = None
  \/ (exists d, flightDuration = Some d /\ JS.gt d (JS.ofZ 0) = false) ->
  percent flightDuration timeToGo = JS.ofZ 0.
Proof.
  intros [E | [E | (d & E & G)]]; subst; unfold percent.
  - reflexivity.
  - destruct flightDuration; reflexivity.
  - rewrite G. destruct timeToGo; reflexivity.
Qed.

(** C10, at the input where the code departs from it.  With a duration of
    60 minutes and a time to go that is NaN, both of type number, the
    percentage is NaN, which is not in [0, 100]. *)
Theorem percent_NaN_timeToGo :
  percent (Some (JS.ofZ 60)) (Some JS.NaN) = JS.NaN
  /\ in_percent_range (percent (Some (JS.ofZ 60)) (Some JS.NaN)) = false.
Proof. split; reflexivity. Qed.

End NavBarFacts.

(* ================================================================= *)
(** ** Worked instances *)

Section Instances.

Import FlightMetrics Text NavBar.
Local Open Scope Q_scope.

(** A heading of -10.5 is shown as 11, the magnitude of its floor, while
    floor(abs(-10.5)) is 10. *)
Lemma heading_floor_of_abs_fails :
  heading_metric Utils.getCompassDirection
    Samples.heading_minus_ten_and_a_half
  = heading_row (Some (JS.ofZ 11)) (SecStr "N")
  /\ JS.Math_floor (JS.Math_abs (JS.Fin (-10.5))) = JS.ofZ 10
  /\ heading_metric Utils.getCompassDirection
       Samples.heading_minus_ten_and_a_half
     <> heading_row (Some (JS.Math_floor (JS.Math_abs (JS.Fin (-10.5)))))
          (Utils.getCompassDirection (JS.Fin (-10.5))).
Proof.
  split; [reflexivity | split; [reflexivity |]].
  intros H. vm_compute in H. discriminate H.
Qed.

Lemma heading_metric_abs_of_floor_witness :
  heading_metric Utils.getCompassDirection Samples.south_of_sydney
  = heading_row (Some (JS.ofZ 10)) (SecStr "N")
  /\ heading_metric Utils.getCompassDirection
       Samples.heading_minus_ten_and_a_half
     = heading_row (Some (JS.ofZ 11)) (SecStr "N")
  /\ heading_metric Utils.getCompassDirection
       (snapshot Null Null (JS.ofZ 0) (JS.ofZ 0))
     = heading_row None SecNull.
Proof.
  split; [| split].
  - destruct (heading_metric_abs_of_floor Utils.getCompassDirection
                Samples.south_of_sydney) as (_ & _ & H & _).
    apply (H (-10)); [reflexivity | intros E; discriminate E].
  - destruct (heading_metric_abs_of_floor Utils.getCompassDirection
                Samples.heading_minus_ten_and_a_half) as (_ & H & _).
    apply (H (JS.Fin (-10.5))); reflexivity.
  - destruct (heading_metric_abs_of_floor Utils.getCompassDirection
                (snapshot Null Null (JS.ofZ 0) (JS.ofZ 0))) as (H & _).
    apply H. left. reflexivity.
Defined.

Lemma heading_zero_unavailable_witness :
  heading Samples.due_north_at_destination = Num (JS.Fin 0)
  /\ heading_metric Utils.getCompassDirection
       Samples.due_north_at_destination
     = heading_row None SecNull.
Proof.
  split; [reflexivity |].
  apply (heading_zero_unavailable Utils.getCompassDirection
           Samples.due_north_at_destination 0); reflexivity.
Defined.

Lemma distance_zero_primary_only_witness :
  distanceToGo Samples.due_north_at_destination = Num (JS.Fin 0)
  /\ distance_metric Samples.three_decimals
       Samples.due_north_at_destination
     = distance_row (Some (JS.ofZ 0)) SecNull.
Proof.
  split; [reflexivity |].
  apply (distance_zero_primary_only Samples.three_decimals
           Samples.due_north_at_destination 0); reflexivity.
Defined.



Lemma handleExport_empty_noop_witness :
  run (handleExport (fun _ => "<gpx></gpx>"%string) [] (Some "QF1"%string))
    {| open := true |}
  = (tt, {| open := true |}, []).
Proof.
  apply (handleExport_empty_noop (fun _ => "<gpx></gpx>"%string) []
           (Some "QF1"%string) {| open := true |}).
  reflexivity.
Defined.

Lemma formatDuration_hr_iff_witness :
  JS.ge (JS.ofZ 135) (JS.ofZ 0) = true
  /\ includes "hr" (formatDuration Samples.three_decimals
                      (Some (JS.ofZ 135))) = true
  /\ (0 < Qfloor (135 / 60))%Z
  /\ ~ includes "hr" (formatDuration Samples.three_decimals
                        (Some (JS.ofZ 45))) = true.
Proof.
  split; [reflexivity | split; [| split]].
  - apply (formatDuration_hr_iff Samples.three_decimals (JS.ofZ 135)
             three_decimals_chars eq_refl).
    reflexivity.
  - reflexivity.
  - intros H.
    apply (formatDuration_hr_iff Samples.three_decimals (JS.ofZ 45)
             three_decimals_chars eq_refl) in H.
    discriminate H.
Defined.

End Instances.

(* ================================================================= *)
(** ** More on the metric table *)

Section FlightMetricsMore.

Import FlightMetrics Text.
Local Open Scope Q_scope.

Variables knotsToKmh feetToMeters getCompassDirection : JS.number -> secondary.
Variable shortestDigits : Q -> string.

Lemma ge_ofZ (a b : Z) : JS.ge (JS.ofZ a) (JS.ofZ b) = (b <=? a)%Z.
Proof.
  unfold JS.ge, JS.cmp, JS.ofZ, Qcompare, inject_Z. simpl.
  rewrite !Z.mul_1_r, Z.leb_compare, (Z.compare_antisym a b).
  destruct (a ?= b)%Z; reflexivity.
Qed.

Lemma lt_Fin (a b : Q) : JS.lt (JS.Fin a) (JS.Fin b) = true <-> a < b.
Proof.
  unfold JS.lt, JS.cmp. rewrite Qlt_alt.
  destruct (a ?= b); split; congruence.
Qed.

Lemma floor_ofZ (z : Z) : JS.Math_floor (JS.ofZ z) = JS.ofZ z.
Proof. unfold JS.Math_floor, JS.ofZ. now rewrite Qfloor_Z. Qed.

Lemma floor_floor (x : JS.number) :
  JS.Math_floor (JS.Math_floor x) = JS.Math_floor x.
Proof. destruct x; try reflexivity. apply floor_ofZ. Qed.

Lemma ToBoolean_false (v : nullable) :
  ToBoolean v = false
  <-> v = Null \/ v = Undefined \/ v = Num JS.NaN
      \/ exists q, v = Num (JS.Fin q) /\ q == 0.
Proof.
  split.
  - destruct v as [| | [| s | q]]; cbn [ToBoolean JS.truthy]; auto.
    + discriminate.
    + intros H. apply negb_false_iff, Qeq_bool_iff in H. eauto 6.
  - intros [-> | [-> | [-> | (q & -> & Hq)]]]; try reflexivity.
    now apply falsy_Fin.
Qed.

(** X1.  The heading row has a primary value exactly when the heading is a number
    other than zero and NaN; without one it has no secondary value either;
    a primary value is a whole number that is never negative. *)
Theorem heading_value_available (data : FlightData) :
  (metric_value (heading_metric getCompassDirection data) = None
   <-> heading data = Null \/ heading data = Undefined
       \/ heading data = Num JS.NaN
       \/ exists q, heading data = Num (JS.Fin q) /\ q == 0)
  /\ (metric_value (heading_metric getCompassDirection data) = None ->
      secondaryValue (metric_base (heading_metric getCompassDirection data))
      = SecNull)
  /\ (forall v,
        metric_value (heading_metric getCompassDirection data) = Some v ->
        JS.ge v (JS.ofZ 0) = true /\ JS.Math_floor v = v).
Proof.
  rewrite <- ToBoolean_false.
  unfold heading_metric. cbn [metric_value metric_base secondaryValue].
  destruct (ToBoolean (heading data)) eqn:T.
  - split; [split; discriminate | split; [discriminate |]].
    intros v [= <-].
    destruct (heading data) as [| | [| s | q]]; try discriminate.
    + split; reflexivity.
    + cbn [ToNumber]. rewrite abs_floor_Fin, ge_ofZ, floor_ofZ.
      split; [| reflexivity]. apply Z.leb_le, Z.abs_nonneg.
  - split; [split; reflexivity | split; [reflexivity | discriminate]].
Qed.

(** X2.  The distance row lacks a primary value exactly when the field is null or
    absent; its secondary value is null or a string, and it is a string only
    beside a primary value other than zero and NaN; a primary value is a
    whole number (or not finite). *)
Theorem distance_value_available (data : FlightData) :
  (metric_value (distance_metric shortestDigits data) = None
   <-> distanceToGo data = Null \/ distanceToGo data = Undefined)
  /\ (secondaryValue (metric_base (distance_metric shortestDigits data))
      = SecNull
      \/ exists t v,
           secondaryValue (metric_base (distance_metric shortestDigits data))
           = SecStr t
           /\ metric_value (distance_metric shortestDigits data) = Some v
           /\ JS.truthy v = true)
  /\ (forall v,
        metric_value (distance_metric shortestDigits data) = Some v ->
        JS.Math_floor v = v).
Proof.
  unfold distance_metric, floored_distanceToGo.
  cbn [metric_value metric_base secondaryValue].
  destruct (distanceToGo data) as [| | d]; cbn [is_null is_undefined negb andb].
  - split; [split; auto | split; [left; reflexivity | discriminate]].
  - split; [split; auto | split; [left; reflexivity | discriminate]].
  - cbn [ToNumber]. split; [| split].
    + split; [discriminate | intros [H | H]; discriminate H].
    + destruct (JS.truthy (JS.Math_floor d)) eqn:T; [right | left; reflexivity].
      eauto.
    + intros v [= <-]. apply floor_floor.
Qed.

(** *** Kilometres of the distance to go *)

Lemma truthy_ofZ (n : Z) : n <> 0%Z -> JS.truthy (JS.ofZ n) = true.
Proof.
  intros Hn. apply truthy_Fin. intros E.
  apply Hn. now apply (proj1 (inject_Z_injective n 0)).
Qed.

Lemma Z_to_string_nonempty (z : Z) : JS.Z_to_string z <> EmptyString.
Proof.
  unfold JS.Z_to_string, NilZero.string_of_int, NilZero.string_of_uint.
  destruct (Z.to_int z) as [d | d]; destruct d; discriminate.
Qed.

Lemma km_magnitude (n : Z) :
  Qabs (Qred (inject_Z n * (1852 # 1000)))
  == inject_Z (Z.abs n) * (1852 # 1000).
Proof.
  rewrite Qred_correct, Qabs_Qmult. reflexivity.
Qed.

Lemma km_sign (n : Z) :
  n <> 0%Z ->
  JS.sgn (Qred (inject_Z n * (1852 # 1000)))
  = if (n <? 0)%Z then Lt else Gt.
Proof.
  intros Hn. unfold JS.sgn. rewrite Qred_correct.
  destruct (n <? 0)%Z eqn:B.
  - apply Z.ltb_lt in B. apply (proj1 (Qlt_alt _ _)).
    rewrite Zlt_Qlt in B. change (inject_Z 0) with 0 in B. lra.
  - apply Z.ltb_ge in B. assert (B' : (0 < n)%Z) by lia.
    apply (proj1 (Qgt_alt _ _)).
    rewrite Zlt_Qlt in B'. change (inject_Z 0) with 0 in B'. lra.
Qed.

Lemma km_rounded (n : Z) :
  Qfloor (Qabs (Qred (inject_Z n * (1852 # 1000))) + (1 # 2))
  = ((Z.abs n * 1852 + 500) / 1000)%Z.
Proof.
  rewrite km_magnitude.
  assert (E : inject_Z (Z.abs n) * (1852 # 1000) + (1 # 2)
              == (Z.abs n * 1852 + 500 # 1000)).
  { unfold Qeq, Qplus, Qmult, inject_Z. simpl. lia. }
  rewrite E. reflexivity.
Qed.

(** X3.  For a finite distance to go whose floor [n] is not zero (and of
    magnitude below 10^12), the secondary value is the decimal text, with the sign
    of [n], of the whole number of kilometres nearest to |n| * 1.852, the
    upper one on a tie: it is within half a kilometre of the exact
    conversion. *)
Theorem distance_km_nearest (data : FlightData) (q : Q) :
  distanceToGo data = Num (JS.Fin q) ->
  Qfloor q <> 0%Z ->
  (Z.abs (Qfloor q) < 10 ^ 12)%Z ->
  let n := Qfloor q in
  let k := ((Z.abs n * 1852 + 500) / 1000)%Z in
  secondaryValue (metric_base (distance_metric shortestDigits data))
  = SecStr ((if (n <? 0)%Z then "-" else "") ++ JS.Z_to_string k)
  /\ (Z.abs n * 1852 - 500 < 1000 * k <= Z.abs n * 1852 + 500)%Z.
Proof.
  intros E Hn Hbig n k. split.
  - unfold distance_metric. cbn [metric_base secondaryValue].
    rewrite (floored_distanceToGo_Num data _ E). cbn [JS.Math_floor].
    fold n. rewrite (truthy_ofZ n Hn). f_equal.
    unfold JS.ofZ, nm_to_km. cbn [JS.mul]. unfold JS.toFixed0.
    rewrite (km_sign n Hn), (km_rounded n). fold k.
    destruct (Qle_bool _ _) eqn:B.
    + exfalso. apply Qle_bool_iff in B. rewrite km_magnitude in B.
      fold n in Hbig. rewrite Zlt_Qlt in Hbig.
      change (inject_Z (10 ^ 12)) with 1000000000000 in Hbig.
      change (inject_Z (10 ^ 21)) with 1000000000000000000000 in B.
      lra.
    + destruct (n <? 0)%Z; reflexivity.
  - subst k. pose proof (Z.div_mod (Z.abs n * 1852 + 500) 1000) as D.
    pose proof (Z.mod_pos_bound (Z.abs n * 1852 + 500) 1000) as M.
    lia.
Qed.

(** *** What a coordinate row displays *)

Lemma rounded_thousandths_opp (v : Q) :
  rounded_thousandths (- v) = rounded_thousandths v.
Proof. apply rounded_thousandths_abs, Qabs_opp. Qed.

Lemma Qle_bool_opp (v : Q) :
  ~ v == 0 -> Qle_bool 0 (- v) = negb (Qle_bool 0 v).
Proof.
  intros Hv.
  destruct (Qle_bool 0 (- v)) eqn:A; destruct (Qle_bool 0 v) eqn:B;
    try reflexivity; exfalso.
  - apply Qle_bool_iff in A. apply Qle_bool_iff in B.
    apply Hv. lra.
  - assert (A' : ~ 0 <= - v) by (rewrite <- Qle_bool_iff; congruence).
    assert (B' : ~ 0 <= v) by (rewrite <- Qle_bool_iff; congruence).
    apply Qnot_le_lt in A'. apply Qnot_le_lt in B'. lra.
Qed.

Lemma coordinate_parts (v : Q) :
  coordinate_whole (JS.Fin v) = JS.ofZ (Qfloor (Qabs v))
  /\ coordinate_decimal (JS.Fin v) = JS.ofZ (rounded_thousandths v)
  /\ JS.ge (JS.Fin v) (JS.ofZ 0) = Qle_bool 0 v.
Proof.
  split; [apply coordinate_whole_Fin |].
  split; [apply coordinate_decimal_Fin | apply ge_zero_Fin].
Qed.

(** A whole number of thousandths is its own binary64 product. *)
Lemma rounded_thousandths_exact (v : Q) :
  Qfrac (Qabs v) * 1000 == inject_Z (thousandths v) ->
  rounded_thousandths v = thousandths v.
Proof.
  intros E. pose proof (thousandths_range v) as Ht.
  destruct (round64_between (Qfrac (Qabs v) * 1000)
              (thousandths v) (thousandths v)) as (r & Er & Lo & Hi);
    try lia; try (rewrite E; apply Qle_refl).
  unfold rounded_thousandths. rewrite Er.
  assert (R : r == inject_Z (thousandths v)) by (apply Qle_antisym; assumption).
  now rewrite (Qfloor_comp _ _ R), Qfloor_Z.
Qed.

(** X4.  The magnitude a coordinate row displays, whole part and three
    decimals, is within one thousandth of the coordinate's magnitude: its
    three decimals are those of the magnitude cut off after the third
    decimal, or the next thousandth when the binary64 product by 1000
    rounds up to a whole number. *)
Theorem coordinate_truncates (v : Q) :
  coordinate_whole (JS.Fin v) = JS.ofZ (Qfloor (Qabs v))
  /\ coordinate_decimal (JS.Fin v) = JS.ofZ (rounded_thousandths v)
  /\ (rounded_thousandths v = thousandths v
      \/ rounded_thousandths v = (thousandths v + 1)%Z)
  /\ displayed_magnitude (Qfloor (Qabs v)) (rounded_thousandths v)
     - (1 # 1000) < Qabs v
  /\ Qabs v
     < displayed_magnitude (Qfloor (Qabs v)) (rounded_thousandths v)
       + (1 # 1000).
Proof.
  destruct (coordinate_parts v) as (Hw & Hd & _).
  split; [exact Hw | split; [exact Hd |]].
  pose proof (rounded_thousandths_near v) as Near.
  pose proof (Qfloor_le (Qfrac (Qabs v) * 1000)) as Hlo.
  pose proof (Qlt_floor (Qfrac (Qabs v) * 1000)) as Hhi.
  fold (thousandths v) in Hlo, Hhi.
  rewrite inject_Z_plus in Hhi. change (inject_Z 1) with 1 in Hhi.
  assert (Cases : rounded_thousandths v = thousandths v
                  \/ (rounded_thousandths v = (thousandths v + 1)%Z
                      /\ inject_Z (thousandths v)
                         < Qfrac (Qabs v) * 1000)).
  { destruct (Z.eq_dec (rounded_thousandths v) (thousandths v)) as [E | N];
      [left; exact E | right]. split; [lia |].
    apply Qle_lteq in Hlo. destruct Hlo as [L | E]; [exact L |].
    exfalso. apply N. apply rounded_thousandths_exact. now symmetry. }
  split; [destruct Cases as [E | [E _]]; auto |].
  unfold displayed_magnitude, Qdiv. change (/ 1000) with (1 # 1000).
  unfold Qfrac in Hlo, Hhi, Cases.
  destruct Cases as [E | [E S]]; rewrite E; clear E Near;
    [| rewrite inject_Z_plus; change (inject_Z 1) with 1];
    revert Hlo Hhi; try revert S;
    generalize (inject_Z (thousandths v)), (inject_Z (Qfloor (Qabs v)));
    intros; split; lra.
Qed.

(** X5.  A coordinate and its mirror image across the equator (or the prime
    meridian) get the same digits and opposite hemisphere letters. *)
Theorem coordinate_mirror (north south : FlightData) (v : Q) :
  ~ v == 0 ->
  (latitude north = JS.Fin v -> latitude south = JS.Fin (- v) ->
   exists w d,
     latitude_metric north
     = coordinate_row "Latitude" (if Qle_bool 0 v then "°N" else "°S") w d
     /\ latitude_metric south
        = coordinate_row "Latitude" (if Qle_bool 0 v then "°S" else "°N") w d)
  /\ (longitude north = JS.Fin v -> longitude south = JS.Fin (- v) ->
      exists w d,
        longitude_metric north
        = coordinate_row "Longitude" (if Qle_bool 0 v then "°E" else "°W")
            w d
        /\ longitude_metric south
           = coordinate_row "Longitude" (if Qle_bool 0 v then "°W" else "°E")
               w d).
Proof.
  intros Hv.
  destruct (coordinate_parts v) as (Hw & Hd & Hu).
  destruct (coordinate_parts (- v)) as (Hw' & Hd' & Hu').
  rewrite (Qfloor_comp _ _ (Qabs_opp v)) in Hw'.
  rewrite rounded_thousandths_opp in Hd'. rewrite (Qle_bool_opp v Hv) in Hu'.
  split; intros E1 E2; exists (Qfloor (Qabs v)), (rounded_thousandths v).
  - unfold latitude_metric, coordinate_row.
    rewrite E1, E2, Hw, Hd, Hu, Hw', Hd', Hu'.
    destruct (Qle_bool 0 v); split; reflexivity.
  - unfold longitude_metric, coordinate_row.
    rewrite E1, E2, Hw, Hd, Hu, Hw', Hd', Hu'.
    destruct (Qle_bool 0 v); split; reflexivity.
Qed.

(** *** The rendered cells *)

(** X6.  The cells that read Not Available are the heading cell, exactly when the
    heading is null, absent, zero or NaN, and the distance cell, exactly when
    the distance to go is null or absent; the speed, altitude and coordinate
    cells always show their counters. *)
Theorem not_available_cells (loading : bool) (data : FlightData) :
  map key
    (filter is_not_available
       (render knotsToKmh feetToMeters getCompassDirection shortestDigits
          loading data))
  = ((if ToBoolean (heading data) then [] else ["Heading"%string])
     ++ (if negb (is_null (distanceToGo data))
            && negb (is_undefined (distanceToGo data))
         then [] else ["Distance To Go"%string]))%list.
Proof.
  unfold render, metrics. cbn [map].
  unfold render_metric, is_not_available. cbn [filter body speed_metric
    altitude_metric latitude_metric longitude_metric].
  unfold heading_metric, distance_metric, floored_distanceToGo.
  destruct (ToBoolean (heading data));
    destruct (negb (is_null (distanceToGo data))
              && negb (is_undefined (distanceToGo data)));
    reflexivity.
Qed.

Lemma render_keys (loading : bool) (data : FlightData) :
  map key
    (render knotsToKmh feetToMeters getCompassDirection shortestDigits
       loading data)
  = [ "Ground Speed"; "Altitude"; "Heading"; "Distance To Go";
      "Latitude"; "Longitude" ]%string.
Proof. reflexivity. Qed.

(** X7.  While loading no cell shows a secondary line, and a coordinate cell never
    shows one: a cell with a secondary line is one of the first four, drawn
    when not loading, and the line carries a value that is neither null nor
    absent. *)
Theorem secondary_lines (loading : bool) (data : FlightData) (c : Cell) :
  In c (render knotsToKmh feetToMeters getCompassDirection shortestDigits
          loading data) ->
  has_secondary_line c = true ->
  loading = false
  /\ In (key c)
       [ "Ground Speed"; "Altitude"; "Heading"; "Distance To Go" ]%string
  /\ exists v u, secondary_line c = Some (v, Some u)
                 /\ v <> SecNull /\ v <> SecAbsent.
Proof.
  unfold render, metrics. cbn [map In].
  unfold has_secondary_line.
  intros [E | [E | [E | [E | [E | [E | []]]]]]] H; subst c;
    cbn [render_metric secondary_line key metric_base speed_metric
         altitude_metric heading_metric distance_metric latitude_metric
         longitude_metric title secondaryValue secondaryUnit] in *;
    destruct loading; cbn [negb andb secondary_truthy] in H;
    try discriminate H;
    (split; [reflexivity |]);
    (split; [cbn [In]; auto 6 |]);
    match type of H with
    | context [secondary_truthy ?s] =>
        destruct (secondary_truthy s) eqn:T; [| discriminate H];
        eexists; eexists; split; [reflexivity |];
        split; intros E; rewrite E in T; discriminate T
    end.
Qed.

Lemma toFixed0_nonempty (x : JS.number) :
  writes_some_digit shortestDigits ->
  JS.toFixed0 shortestDigits x <> EmptyString.
Proof.
  intros Hd. destruct x as [| [|] | q]; try discriminate.
  unfold JS.toFixed0.
  assert (A : forall s t : string, t <> EmptyString ->
                (s ++ t)%string <> EmptyString).
  { intros [| a s] t Ht; [exact Ht | discriminate]. }
  destruct (Qle_bool _ _); apply A.
  - unfold JS.numberToString.
    destruct (_ && _); [apply Z_to_string_nonempty | apply Hd].
  - apply Z_to_string_nonempty.
Qed.

(** X8.  The kilometres line is drawn exactly when the table is not loading and
    the distance to go is a number whose floor is neither zero nor NaN.  The
    digits written for a number are assumed not to be empty. *)
Theorem km_line_shown (loading : bool) (data : FlightData) :
  writes_some_digit shortestDigits ->
  (has_secondary_line
     (render_metric loading (distance_metric shortestDigits data)) = true
   <-> loading = false
       /\ exists d, distanceToGo data = Num d
                    /\ JS.truthy (JS.Math_floor d) = true).
Proof.
  intros Hd.
  unfold has_secondary_line, render_metric, distance_metric,
    floored_distanceToGo.
  cbn [secondary_line metric_base secondaryValue].
  destruct (distanceToGo data) as [| | d];
    cbn [is_null is_undefined negb andb ToNumber secondary_truthy].
  - rewrite andb_false_r. split; [discriminate |].
    intros (_ & d & E & _). discriminate E.
  - rewrite andb_false_r. split; [discriminate |].
    intros (_ & d & E & _). discriminate E.
  - destruct (JS.truthy (JS.Math_floor d)) eqn:T;
      cbn [secondary_truthy].
    + assert (N : String.eqb
                    (JS.toFixed0 shortestDigits
                       (JS.mul (JS.Math_floor d) nm_to_km)) "" = false).
      { apply String.eqb_neq. now apply toFixed0_nonempty. }
      rewrite N. destruct loading; cbn [negb andb].
      * split; [discriminate | intros [H _]; discriminate H].
      * split; [intros _ | reflexivity]. split; [reflexivity |].
        exists d. split; [reflexivity | exact T].
    + rewrite andb_false_r. split; [discriminate |].
      intros (_ & d' & [= <-] & T'). congruence.
Qed.

(** *** Columns *)

(** X9.  The column count is 1 below a width of 640, 2 from 640 up to 768, and 3
    from 768 on; it never decreases as the viewport widens, and it is between
    1 and 3 for every number, NaN and the infinities included. *)
Theorem handleResize_breakpoints (w w' : Q) (x : JS.number) :
  (handleResize (JS.Fin w) = 1%Z <-> w < 640)
  /\ (handleResize (JS.Fin w) = 2%Z <-> 640 <= w /\ w < 768)
  /\ (handleResize (JS.Fin w) = 3%Z <-> 768 <= w)
  /\ (w <= w' -> (handleResize (JS.Fin w) <= handleResize (JS.Fin w'))%Z)
  /\ (1 <= handleResize x <= 3)%Z.
Proof.
  assert (R : forall y, (1 <= handleResize y <= 3)%Z).
  { intros y. unfold handleResize.
    destruct (JS.lt y _); [lia |]. destruct (JS.lt y _); lia. }
  assert (C : forall u,
            (u < 640 /\ handleResize (JS.Fin u) = 1%Z)
            \/ (640 <= u /\ u < 768 /\ handleResize (JS.Fin u) = 2%Z)
            \/ (768 <= u /\ handleResize (JS.Fin u) = 3%Z)).
  { intros u. unfold handleResize.
    destruct (JS.lt (JS.Fin u) (JS.ofZ 640)) eqn:A.
    - left. split; [| reflexivity]. now apply lt_Fin in A.
    - assert (A' : ~ u < 640).
      { intros H. apply (proj2 (lt_Fin u 640)) in H.
        unfold JS.ofZ, inject_Z in A. congruence. }
      apply Qnot_lt_le in A'.
      destruct (JS.lt (JS.Fin u) (JS.ofZ 768)) eqn:B.
      + right; left. apply lt_Fin in B. auto.
      + assert (B' : ~ u < 768).
        { intros H. apply (proj2 (lt_Fin u 768)) in H.
          unfold JS.ofZ, inject_Z in B. congruence. }
        apply Qnot_lt_le in B'. right; right. auto. }
  repeat split.
  - intros H. destruct (C w) as [(? & _) | [(? & ? & E) | (? & E)]];
      [assumption | |]; rewrite E in H; discriminate H.
  - intros H. destruct (C w) as [(? & E) | [(? & ? & E) | (? & E)]];
      [exact E | exfalso; lra | exfalso; lra].
  - destruct (C w) as [(? & E) | [(? & ? & _) | (? & E)]];
      [rewrite E in H; discriminate H | assumption
      | rewrite E in H; discriminate H].
  - destruct (C w) as [(? & E) | [(? & ? & _) | (? & E)]];
      [rewrite E in H; discriminate H | assumption
      | rewrite E in H; discriminate H].
  - intros [H1 H2]. destruct (C w) as [(? & E) | [(? & ? & E) | (? & E)]];
      [exfalso; lra | exact E | exfalso; lra].
  - intros H. destruct (C w) as [(? & E) | [(? & ? & E) | (? & _)]];
      [rewrite E in H; discriminate H | rewrite E in H; discriminate H
      | assumption].
  - intros H. destruct (C w) as [(? & E) | [(? & ? & E) | (? & E)]];
      [exfalso; lra | exfalso; lra | exact E].
  - intros H.
    destruct (C w) as [(? & E) | [(? & ? & E) | (? & E)]];
      destruct (C w') as [(? & E') | [(? & ? & E') | (? & E')]];
      rewrite E, E'; try lia; exfalso; lra.
  - apply R.
  - apply R.
Qed.

End FlightMetricsMore.

(* ================================================================= *)
(** ** More on the navigation bar *)

Section NavBarMore.

Import Text NavBar.
Local Open Scope Q_scope.

Variable shortestDigits : Q -> string.
Variable convertToGPX : list FlightData -> string.

(** *** The duration label *)

Lemma string_length_app (a b : string) :
  String.length (a ++ b) = (String.length a + String.length b)%nat.
Proof. induction a as [| x a IH]; simpl; [reflexivity | now rewrite IH]. Qed.

(** X10.  [formatDuration] answers N/A for a missing input and for NaN, and for
    nothing else: a number that is not NaN is never reported as missing. *)
Theorem formatDuration_NA_iff (mins : option JS.number) :
  formatDuration shortestDigits mins = "N/A"%string
  <-> mins = None \/ mins = Some JS.NaN.
Proof.
  split.
  - destruct mins as [n |]; [| auto].
    destruct n as [| s | q]; [auto | |]; intros H; exfalso;
      unfold formatDuration in H; cbn [JS.isNaN] in H; cbv zeta in H;
      apply (f_equal String.length) in H;
      rewrite !string_length_app in H; simpl in H; lia.
  - intros [-> | ->]; reflexivity.
Qed.

Lemma formatDuration_negative (q : Q) :
  q < 0 -> formatDuration shortestDigits (Some (JS.Fin q)) = "0 min"%string.
Proof.
  intros Hq.
  destruct (max_zero_negative (JS.Fin q)) as [Hnan Hmax].
  { apply lt_Fin. exact Hq. }
  unfold formatDuration. rewrite Hnan. cbv zeta. rewrite Hmax. reflexivity.
Qed.

Lemma sixty_quotient (q : Q) :
  0 <= q ->
  (0 <= Qfloor (q / 60))%Z
  /\ 0 <= q - 60 * inject_Z (Qfloor (q / 60))
  /\ q - 60 * inject_Z (Qfloor (q / 60)) < 60.
Proof.
  intros Hq.
  assert (Hd : 0 <= q / 60) by (apply Qle_shift_div_l; [reflexivity | lra]).
  split.
  - rewrite <- (Qfloor_Z 0). now apply Qfloor_resp_le.
  - pose proof (Qfloor_le (q / 60)) as Hlo.
    pose proof (Qlt_floor (q / 60)) as Hhi.
    rewrite inject_Z_plus in Hhi. change (inject_Z 1) with 1 in Hhi.
    generalize dependent (inject_Z (Qfloor (q / 60))). intros f Hlo Hhi.
    assert (E : q == 60 * (q / 60)) by field.
    apply Qmult_le_l with (z := 60) in Hlo; [| reflexivity].
    apply Qmult_lt_l with (z := 60) in Hhi; [| reflexivity].
    rewrite <- E in Hlo, Hhi. split; lra.
Qed.

(** X11.  For every finite input below 2^53 the label is built from a whole
    number of hours [h >= 0] and a number of minutes [0 <= r < 60] that
    together make up the input clamped at zero: 60 * h + r is the input, or
    0 for a negative one.  The minutes figure never reaches 60. *)
Theorem formatDuration_minutes_below_sixty (q : Q) :
  q < 9007199254740992 ->
  exists (h : Z) (r : Q),
    (0 <= h)%Z /\ 0 <= r /\ r < 60
    /\ 60 * inject_Z h + r == (if Qle_bool 0 q then q else 0)
    /\ formatDuration shortestDigits (Some (JS.Fin q))
       = ((if (0 <? h)%Z
           then JS.numberToString shortestDigits (JS.ofZ h) ++ " hr "
           else "")
          ++ JS.numberToString shortestDigits (JS.Fin (Qred r))
          ++ " min")%string.
Proof.
  intros _. destruct (Qle_bool 0 q) eqn:B.
  - apply Qle_bool_iff in B.
    destruct (sixty_quotient q B) as (Hh & Hlo & Hhi).
    exists (Qfloor (q / 60)), (q - 60 * inject_Z (Qfloor (q / 60))).
    repeat split; try assumption; [ring |].
    apply (formatDuration_nonneg shortestDigits q B).
  - assert (Hq : q < 0).
    { apply Qnot_le_lt. intros H. apply Qle_bool_iff in H. congruence. }
    exists 0%Z, 0. repeat split; try reflexivity; try discriminate.
    now apply formatDuration_negative.
Qed.

(** *** Reading the label back *)

Lemma number_char_not_space (c : ascii) :
  number_char c = true -> not_space c = true.
Proof.
  unfold not_space. destruct (Ascii.eqb c " ") eqn:E; [| reflexivity].
  apply Ascii.eqb_eq in E. subst c. vm_compute. intros H; exact H.
Qed.

Lemma Z_to_string_no_space (z : Z) :
  all_chars not_space (JS.Z_to_string z) = true.
Proof.
  apply (all_chars_weaken number_char not_space _ number_char_not_space).
  apply Z_to_string_chars.
Qed.

Lemma split_at_space (a b x y : string) :
  all_chars not_space a = true -> all_chars not_space b = true ->
  (a ++ String " " x = b ++ String " " y)%string -> a = b /\ x = y.
Proof.
  revert b. induction a as [| c a IH]; intros [| c' b] Ha Hb E;
    cbn [append all_chars] in *.
  - injection E as E. auto.
  - injection E as E1 E2. subst c'. discriminate Hb.
  - injection E as E1 E2. subst c. discriminate Ha.
  - injection E as E1 E2. subst c'.
    apply andb_true_iff in Ha. apply andb_true_iff in Hb.
    destruct (IH b (proj2 Ha) (proj2 Hb) E2) as [-> ->]. auto.
Qed.

Lemma Z_to_int_proper (z : Z) :
  Z.to_int z <> Decimal.Pos Decimal.Nil
  /\ Z.to_int z <> Decimal.Neg Decimal.Nil.
Proof.
  destruct z as [| p | p]; cbn [Z.to_int]; split; try discriminate;
    intros [= E]; now apply (DecimalPos.Unsigned.to_uint_nonnil p).
Qed.

Lemma Z_to_string_inj (a b : Z) :
  JS.Z_to_string a = JS.Z_to_string b -> a = b.
Proof.
  intros E. apply DecimalZ.to_int_inj.
  destruct (Z_to_int_proper a) as [Pa Na].
  destruct (Z_to_int_proper b) as [Pb Nb].
  pose proof (NilZero.isi (Z.to_int a) Pa Na) as Ia.
  pose proof (NilZero.isi (Z.to_int b) Pb Nb) as Ib.
  unfold JS.Z_to_string in E. rewrite E in Ia. congruence.
Qed.

Lemma minutes_text_inj (a b : Z) :
  (JS.Z_to_string a ++ " min" = JS.Z_to_string b ++ " min")%string -> a = b.
Proof.
  intros E. apply Z_to_string_inj.
  apply (split_at_space _ _ "min" "min"); auto using Z_to_string_no_space.
Qed.

(** X12.  Two whole numbers of minutes from 0 to below 10^21 never share a label:
    the text of [formatDuration] determines the minute count. *)
Theorem formatDuration_injective (a b : Z) :
  (0 <= a < 10 ^ 21)%Z -> (0 <= b < 10 ^ 21)%Z ->
  formatDuration shortestDigits (Some (JS.ofZ a))
  = formatDuration shortestDigits (Some (JS.ofZ b)) ->
  a = b.
Proof.
  intros Ha Hb. unfold JS.ofZ.
  rewrite !formatDuration_nonneg
    by (change 0 with (inject_Z 0); rewrite <- Zle_Qle; lia).
  rewrite !duration_text_integer by assumption.
  pose proof (Z.div_mod a 60) as Da. pose proof (Z.div_mod b 60) as Db.
  assert (Qa : (0 <= a / 60)%Z) by (apply Z.div_pos; lia).
  assert (Qb : (0 <= b / 60)%Z) by (apply Z.div_pos; lia).
  destruct (0 <? a / 60)%Z eqn:A; destruct (0 <? b / 60)%Z eqn:B;
    rewrite ?string_app_assoc; cbn [append]; intros E.
  - apply split_at_space in E; auto using Z_to_string_no_space.
    destruct E as [Eh Em]. injection Em as Em.
    apply Z_to_string_inj in Eh. apply minutes_text_inj in Em. lia.
  - exfalso. apply split_at_space in E; auto using Z_to_string_no_space.
    destruct E as [_ E]. discriminate E.
  - exfalso. apply split_at_space in E; auto using Z_to_string_no_space.
    destruct E as [_ E]. discriminate E.
  - apply minutes_text_inj in E.
    apply Z.ltb_ge in A. apply Z.ltb_ge in B. lia.
Qed.

(** *** The progress bar *)

Lemma clamp_value (x : Q) :
  exists p,
    JS.Math_max (JS.ofZ 0) (JS.Math_min (JS.ofZ 100) (JS.Fin x)) = JS.Fin p
    /\ (x <= 0 -> p == 0) /\ (100 <= x -> p == 100)
    /\ (0 <= x -> x <= 100 -> p == x).
Proof.
  unfold JS.Math_min, JS.cmp, JS.ofZ.
  change (inject_Z 100) with 100. change (inject_Z 0) with 0.
  destruct (Qcompare_spec 100 x) as [E | L | G].
  - exists 100. split; [reflexivity |].
    repeat split; intros; try reflexivity; lra.
  - exists 100. split; [reflexivity |].
    repeat split; intros; try reflexivity; lra.
  - unfold JS.Math_max, JS.cmp.
    destruct (Qcompare_spec 0 x) as [E' | L' | G'].
    + exists 0. split; [reflexivity |].
      repeat split; intros; try reflexivity; lra.
    + exists x. split; [reflexivity |].
      repeat split; intros; try reflexivity; lra.
    + exists 0. split; [reflexivity |].
      repeat split; intros; try reflexivity; lra.
Qed.

Lemma gt_zero_Fin (d : Q) : JS.gt (JS.Fin d) (JS.ofZ 0) = true <-> 0 < d.
Proof.
  unfold JS.gt, JS.cmp, JS.ofZ. change (inject_Z 0) with 0.
  destruct (Qcompare_spec d 0) as [E | L | G]; split; intros H;
    try discriminate; try reflexivity; try assumption; exfalso; lra.
Qed.

(** The unclamped ratio, as the code computes it. *)
Lemma percent_ratio (d t : Q) :
  0 < d ->
  exists x,
    percent (Some (JS.Fin d)) (Some (JS.Fin t))
    = JS.Math_max (JS.ofZ 0) (JS.Math_min (JS.ofZ 100) (JS.Fin x))
    /\ x * d == (d - t) * 100.
Proof.
  intros Hd. unfold percent.
  rewrite (proj2 (gt_zero_Fin d) Hd).
  assert (Sd : JS.sgn d = Gt) by (apply (proj1 (Qgt_alt _ _)); exact Hd).
  unfold JS.sub, JS.neg, JS.add, JS.div. rewrite Sd.
  cbn [JS.mul JS.ofZ]. eexists. split; [reflexivity |].
  rewrite !Qred_correct. change (inject_Z 100) with 100.
  field. lra.
Qed.

(** X13.  With a finite duration above 0 and a finite time to go, the bar
    is a finite percentage between 0 and 100, empty exactly when the time to
    go is at least the duration, and full whenever the time to go is at
    most 0. *)
Theorem percent_saturation (d t : Q) :
  0 < d ->
  exists p,
    percent (Some (JS.Fin d)) (Some (JS.Fin t)) = JS.Fin p
    /\ 0 <= p /\ p <= 100
    /\ (p == 0 <-> d <= t)
    /\ (t <= 0 -> p == 100).
Proof.
  intros Hd.
  destruct (percent_ratio d t Hd) as (x & Ex & Hx).
  destruct (clamp_value x) as (p & Ep & Hlo & Hhi & Hmid).
  exists p. split; [now rewrite Ex |].
  assert (Hx0 : x <= 0 <-> d <= t) by (split; intros; nra).
  assert (Hx100 : 100 <= x <-> t <= 0) by (split; intros; nra).
  destruct (Qlt_le_dec x 0) as [L | G];
    [| destruct (Qlt_le_dec 100 x) as [L' | G']].
  - assert (P : p == 0) by (apply Hlo; lra).
    repeat split; intros; try (rewrite P in *); try nra.
  - assert (P : p == 100) by (apply Hhi; lra).
    repeat split; intros; try (rewrite P in *); try nra.
  - assert (P : p == x) by (apply Hmid; assumption).
    repeat split; intros; try (rewrite P in *); try nra.
Qed.

(** X14.  For a fixed finite duration above 0, a longer time to go never gives a
    fuller bar. *)
Theorem percent_antitone (d t t' : Q) :
  0 < d -> t <= t' ->
  exists p p',
    percent (Some (JS.Fin d)) (Some (JS.Fin t)) = JS.Fin p
    /\ percent (Some (JS.Fin d)) (Some (JS.Fin t')) = JS.Fin p'
    /\ p' <= p.
Proof.
  intros Hd Ht.
  destruct (percent_ratio d t Hd) as (x & Ex & Hx).
  destruct (percent_ratio d t' Hd) as (x' & Ex' & Hx').
  destruct (clamp_value x) as (p & Ep & Hlo & Hhi & Hmid).
  destruct (clamp_value x') as (p' & Ep' & Hlo' & Hhi' & Hmid').
  exists p, p'. split; [now rewrite Ex | split; [now rewrite Ex' |]].
  assert (Hxx : x' <= x) by nra.
  destruct (Qlt_le_dec x 0) as [L | G];
    [| destruct (Qlt_le_dec 100 x) as [L1 | G1]];
    (destruct (Qlt_le_dec x' 0) as [L' | G'];
     [| destruct (Qlt_le_dec 100 x') as [L1' | G1']]);
    try (exfalso; lra);
    repeat match goal with
           | H : ?a <= 0 -> _ |- _ =>
               first [ specialize (H ltac:(lra)) | clear H ]
           | H : 100 <= ?a -> _ |- _ =>
               first [ specialize (H ltac:(lra)) | clear H ]
           | H : 0 <= ?a -> ?a <= 100 -> _ |- _ =>
               first [ specialize (H ltac:(lra) ltac:(lra)) | clear H ]
           end;
    lra.
Qed.

(** *** Export and reset *)

(** X15.  The export item is disabled exactly when its handler would make no call:
    an enabled item always converts and downloads, a disabled one never
    does. *)
Theorem export_disabled_iff_noop (flightData : list FlightData)
    (flightNumber : option string) (st : State) :
  export_disabled flightData = true
  <-> calls (handleExport convertToGPX flightData flightNumber) st = [].
Proof.
  destruct flightData as [| d ds]; split; intros H;
    try reflexivity; discriminate H.
Qed.

(** X16.  Whatever is handed to [downloadGPX] is the conversion of the whole,
    non-empty list, under a file name that is never empty: the flight number
    when there is a non-empty one, the word flight otherwise; and the menu is
    closed afterwards. *)
Theorem download_call (flightData : list FlightData)
    (flightNumber : option string) (st : State) (content name : string) :
  In (CallDownloadGPX content name)
    (calls (handleExport convertToGPX flightData flightNumber) st) ->
  flightData <> []
  /\ content = convertToGPX flightData
  /\ name <> EmptyString
  /\ (forall s, flightNumber = Some s -> s <> EmptyString -> name = s)
  /\ (flightNumber = None \/ flightNumber = Some EmptyString ->
      name = "flight"%string)
  /\ open (state_after (handleExport convertToGPX flightData flightNumber)
             st) = false.
Proof.
  destruct flightData as [| d ds]; [intros [] |].
  cbn. intros [H | [H | [H | []]]]; try discriminate H.
  injection H as <- <-.
  split; [discriminate |]. split; [reflexivity |].
  destruct flightNumber as [[| c s] |]; cbn;
    (split; [discriminate |]);
    (split; [intros s' [= <-] Hs; try reflexivity; now elim Hs
            | split; [intros [E | E]; try discriminate E; reflexivity
                     | reflexivity]]).
Qed.

(** *** Elapsed time *)


(** X17.  When either of the two props is missing, the elapsed label reads N/A and
    the bar is empty. *)
Theorem missing_props (flightDuration timeToGo : option JS.number) :
  flightDuration = None \/ timeToGo = None ->
  formatDuration shortestDigits (elapsed flightDuration timeToGo)
  = "N/A"%string
  /\ percent flightDuration timeToGo = JS.ofZ 0.
Proof.
  intros [-> | ->]; [split; reflexivity |].
  destruct flightDuration; split; reflexivity.
Qed.


End NavBarMore.

(* ================================================================= *)
(** ** More worked instances *)

Section MoreInstances.

Import FlightMetrics Text NavBar.
Local Open Scope Q_scope.

Lemma three_decimals_nonempty : writes_some_digit Samples.three_decimals.
Proof.
  intros q E. apply (f_equal String.length) in E.
  unfold Samples.three_decimals in E.
  rewrite !string_length_app in E. simpl in E. lia.
Qed.

Lemma heading_value_available_witness :
  metric_value
    (heading_metric Utils.getCompassDirection
       Samples.due_north_at_destination) = None
  /\ JS.ge (JS.ofZ 10) (JS.ofZ 0) = true.
Proof.
  split.
  - destruct (heading_value_available Utils.getCompassDirection
                Samples.due_north_at_destination) as (H & _).
    apply H. right; right; right. exists 0. split; reflexivity.
  - destruct (heading_value_available Utils.getCompassDirection
                Samples.south_of_sydney) as (_ & _ & H).
    apply (H (JS.ofZ 10)). reflexivity.
Defined.

Lemma distance_value_available_witness :
  metric_value
    (distance_metric Samples.three_decimals
       Samples.heading_minus_ten_and_a_half) = None
  /\ JS.Math_floor (JS.ofZ 123) = JS.ofZ 123.
Proof.
  split.
  - destruct (distance_value_available Samples.three_decimals
                Samples.heading_minus_ten_and_a_half) as (H & _).
    apply H. left. reflexivity.
  - destruct (distance_value_available Samples.three_decimals
                Samples.south_of_sydney) as (_ & _ & H).
    apply (H (JS.ofZ 123)). reflexivity.
Defined.

Lemma distance_km_nearest_witness :
  secondaryValue
    (metric_base
       (distance_metric Samples.three_decimals Samples.south_of_sydney))
  = SecStr "228".
Proof.
  refine (proj1 (distance_km_nearest Samples.three_decimals
                   Samples.south_of_sydney 123.7 eq_refl _ _)).
  - vm_compute. discriminate.
  - vm_compute. reflexivity.
Defined.

Lemma coordinate_mirror_witness :
  exists w d,
    latitude_metric Samples.mirror_of_sydney
    = coordinate_row "Latitude" "°N" w d
    /\ latitude_metric Samples.south_of_sydney
       = coordinate_row "Latitude" "°S" w d.
Proof.
  refine (proj1 (coordinate_mirror Samples.mirror_of_sydney
                   Samples.south_of_sydney 33.8765 _) eq_refl eq_refl).
  intros E. discriminate E.
Defined.

Lemma secondary_lines_witness :
  exists v u,
    secondary_line
      (render_metric false
         (distance_metric Samples.three_decimals Samples.south_of_sydney))
    = Some (v, Some u)
    /\ v <> SecNull /\ v <> SecAbsent.
Proof.
  refine (proj2 (proj2 (secondary_lines
            (Utils.knotsToKmh Samples.three_decimals)
            (Utils.feetToMeters Samples.three_decimals)
            Utils.getCompassDirection Samples.three_decimals
            false Samples.south_of_sydney
            (render_metric false
               (distance_metric Samples.three_decimals
                  Samples.south_of_sydney)) _ eq_refl))).
  right; right; right; left. reflexivity.
Defined.

Lemma km_line_shown_witness :
  has_secondary_line
    (render_metric false
       (distance_metric Samples.three_decimals Samples.south_of_sydney))
  = true.
Proof.
  apply (km_line_shown Samples.three_decimals false Samples.south_of_sydney
           three_decimals_nonempty).
  split; [reflexivity |]. exists (JS.Fin 123.7). split; reflexivity.
Defined.

Lemma handleResize_breakpoints_witness :
  (handleResize (JS.Fin 500) <= handleResize (JS.Fin 1024))%Z.
Proof.
  destruct (handleResize_breakpoints 500 1024 JS.NaN) as (_ & _ & _ & H & _).
  apply H. discriminate.
Defined.

Lemma formatDuration_injective_witness :
  formatDuration Samples.three_decimals (Some (JS.ofZ 135))
  <> formatDuration Samples.three_decimals (Some (JS.ofZ 75)).
Proof.
  intros E.
  apply (formatDuration_injective Samples.three_decimals 135 75) in E.
  - discriminate E.
  - split; [discriminate | reflexivity].
  - split; [discriminate | reflexivity].
Defined.

Lemma percent_saturation_witness :
  exists p,
    percent (Some (JS.Fin 60)) (Some (JS.Fin 15)) = JS.Fin p
    /\ 0 <= p /\ p <= 100
    /\ (p == 0 <-> 60 <= 15)
    /\ (15 <= 0 -> p == 100).
Proof.
  apply (percent_saturation 60 15). reflexivity.
Defined.

Lemma formatDuration_minutes_below_sixty_witness :
  exists (h : Z) (r : Q),
    (0 <= h)%Z /\ 0 <= r /\ r < 60
    /\ 60 * inject_Z h + r == 135
    /\ formatDuration Samples.three_decimals (Some (JS.Fin 135))
       = ((if (0 <? h)%Z
           then JS.numberToString Samples.three_decimals (JS.ofZ h) ++ " hr "
           else "")
          ++ JS.numberToString Samples.three_decimals (JS.Fin (Qred r))
          ++ " min")%string.
Proof.
  apply (formatDuration_minutes_below_sixty Samples.three_decimals 135).
  reflexivity.
Defined.

Lemma percent_antitone_witness :
  exists p p',
    percent (Some (JS.Fin 60)) (Some (JS.Fin 15)) = JS.Fin p
    /\ percent (Some (JS.Fin 60)) (Some (JS.Fin 45)) = JS.Fin p'
    /\ p' <= p.
Proof.
  apply (percent_antitone 60 15 45); [reflexivity | discriminate].
Defined.

Lemma download_call_witness :
  In (CallDownloadGPX (Samples.sample_gpx [Samples.south_of_sydney]) "QF1")
    (calls (handleExport Samples.sample_gpx [Samples.south_of_sydney]
              (Some "QF1"%string)) {| open := true |})
  /\ open (state_after
             (handleExport Samples.sample_gpx [Samples.south_of_sydney]
                (Some "QF1"%string)) {| open := true |}) = false.
Proof.
  assert (H : In (CallDownloadGPX
                    (Samples.sample_gpx [Samples.south_of_sydney]) "QF1")
                (calls (handleExport Samples.sample_gpx
                          [Samples.south_of_sydney] (Some "QF1"%string))
                   {| open := true |})).
  { right; left. reflexivity. }
  split; [exact H |].
  apply (download_call Samples.sample_gpx [Samples.south_of_sydney]
           (Some "QF1"%string) {| open := true |}
           (Samples.sample_gpx [Samples.south_of_sydney]) "QF1" H).
Defined.

Lemma missing_props_witness :
  formatDuration Samples.three_decimals (elapsed None (Some (JS.ofZ 15)))
  = "N/A"%string
  /\ percent None (Some (JS.ofZ 15)) = JS.ofZ 0.
Proof.
  apply (missing_props Samples.three_decimals None (Some (JS.ofZ 15))).
  left. reflexivity.
Defined.


End MoreInstances.
